(** * Event Hub demonstration scripts: a shallow embedding

    The Python scripts [send_events.py], [receive_events.py], [demo.py] and
    [data_explorer_demo.py] are embedded as Rocq programs in a small
    state-and-exception monad.  Python dictionaries used as counters are
    finite maps, [int] is [Z], lists are lists.  Objects that belong to the
    Event Hubs client library (the received event, the partition context,
    the receive loop) are described by the observations the scripts make of
    them. *)

From Stdlib Require Import ZArith QArith Lia.
From stdpp Require Import base option list strings pretty gmap fin_maps sorting.

Set Warnings "-register-all".
Open Scope string_scope.
Open Scope list_scope.
Open Scope Z_scope.

(** ** Python exceptions and outcomes *)

Inductive exn : Type :=
  | CancelledError        (* asyncio.CancelledError: a BaseException *)
  | KeyboardInterrupt     (* a BaseException *)
  | TypeError
  | AttributeError
  | ZeroDivisionError
  | EventHubError.        (* any error raised at the transport boundary *)

(** [isinstance(e, Exception)]: what [except Exception] catches. *)
Definition is_Exception (e : exn) : bool :=
  match e with
  | CancelledError | KeyboardInterrupt => false
  | _ => true
  end.

Inductive outcome (A : Type) : Type :=
  | Returns (a : A)
  | Raises (e : exn).
Arguments Returns {A} a.
Arguments Raises {A} e.

(** A program over a mutable store [S]: the store survives an exception,
    as the objects a Python coroutine has mutated do. *)
Definition Prog (S A : Type) : Type := S → outcome A * S.

Global Instance prog_ret {S} : MRet (Prog S) :=
  λ A a s, (Returns a, s).

Global Instance prog_bind {S} : MBind (Prog S) :=
  λ A B f m s,
    match m s with
    | (Returns a, s') => f a s'
    | (Raises e, s') => (Raises e, s')
    end.

Definition raise {S A} (e : exn) : Prog S A := λ s, (Raises e, s).
Definition get_store {S} : Prog S S := λ s, (Returns s, s).
Definition modify {S} (f : S → S) : Prog S unit := λ s, (Returns tt, f s).

(** [try: body / except <clause>: handler]: [clause e] says whether the
    except clause matches the exception. *)
Definition try_except {S A} (body : Prog S A) (clause : exn → bool)
    (handler : exn → Prog S A) : Prog S A :=
  λ s,
    match body s with
    | (Returns a, s') => (Returns a, s')
    | (Raises e, s') => if clause e then handler e s' else (Raises e, s')
    end.

(** [try] with two [except] clauses, tried in order; an exception raised
    by a handler is not offered to the other clause. *)
Definition try_except2 {S A} (body : Prog S A)
    (clause1 : exn → bool) (handler1 : exn → Prog S A)
    (clause2 : exn → bool) (handler2 : exn → Prog S A) : Prog S A :=
  λ s,
    match body s with
    | (Returns a, s') => (Returns a, s')
    | (Raises e, s') =>
        if clause1 e then handler1 e s'
        else if clause2 e then handler2 e s'
        else (Raises e, s')
    end.

Definition lift_outcome {S A} (o : outcome A) : Prog S A := λ s, (o, s).

(** [for x in l: body(x)] *)
Fixpoint for_each {S A} (l : list A) (body : A → Prog S unit) : Prog S unit :=
  match l with
  | [] => mret tt
  | x :: rest => body x ;; for_each rest body
  end.

Definition is_CancelledError (e : exn) : bool :=
  match e with CancelledError => true | _ => false end.

Definition is_KeyboardInterrupt (e : exn) : bool :=
  match e with KeyboardInterrupt => true | _ => false end.

Definition exec {S A} (p : Prog S A) (s : S) : S := snd (p s).
Definition result {S A} (p : Prog S A) (s : S) : outcome A := fst (p s).

(** ** Values *)

Record datetime : Type := Datetime { timestamp_us : Z }.
Record timedelta : Type := Timedelta { delta_us : Z }.

(** [a - b] on two datetimes. *)
Definition datetime_sub (a b : datetime) : timedelta :=
  Timedelta (timestamp_us a - timestamp_us b).

(** [timedelta.total_seconds()]. *)
Definition total_seconds (d : timedelta) : Q := delta_us d # 1000000.

(** A JSON value, as [json.loads] builds it and [json.dump] writes it.  A
    float is kept by its literal. *)
Inductive Json : Type :=
  | JNull
  | JBool (b : bool)
  | JInt (n : Z)
  | JFloat (literal : string)
  | JStr (s : string)
  | JArr (items : list Json)
  | JObj (members : list (string * Json)).

(** [a / b] on two ints: true division, [ZeroDivisionError] on [b = 0]. *)
Definition py_truediv (a b : Z) : outcome Q :=
  if decide (b = 0) then Raises ZeroDivisionError
  else Returns (inject_Z a / inject_Z b)%Q.

(** [a / x] with a float divisor. *)
Definition py_truediv_float (a : Z) (x : Q) : outcome Q :=
  if Qeq_bool x 0 then Raises ZeroDivisionError
  else Returns (inject_Z a / x)%Q.

(** ** The client library's objects, as the scripts observe them *)

Module Sdk.

(** A received [EventData].  [body_as_json] and [body_as_str] are the
    results of the two accessors; [None] stands for a raised error (the
    body is not JSON, respectively cannot be decoded as text). *)
Record Event : Type := {
  offset : string;
  sequence_number : Z;
  enqueued_time : datetime;
  properties : gmap string string;
  body_as_json : option Json;
  body_as_str : option string
}.

(** The [partition_context] handed to [on_event].  [checkpoint_raises]
    is what [update_checkpoint] does for this delivery: [None] when it
    succeeds, [Some e] when it raises [e]. *)
Record PartitionContext : Type := {
  partition_id : string;
  checkpoint_raises : option exn
}.

Definition Delivery : Type := PartitionContext * Event.

(** The per-partition checkpoint: offset and sequence number. *)
Definition Checkpoint : Type := string * Z.

(** One run of [consumer.receive] as the environment plays it: the events
    already in the hub when the consumer opens ([backlog], enqueued before
    the session), the events enqueued afterwards ([arriving]), how many of
    the selected events reach the callback before the call ends
    ([handled]), the way the call ends ([ending]: [None] when it returns,
    [Some e] when [e] is raised inside the awaiting coroutine), and the two
    readings of the clock around the call. *)
Record Session : Type := {
  backlog : list Delivery;
  arriving : list Delivery;
  handled : nat;
  ending : option exn;
  opened_at : datetime;
  closed_at : datetime
}.

(** The [starting_position] argument.  The client library reads ["-1"]
    as the beginning of the partition stream and ["@latest"] as the end of
    it (only events enqueued from now on); any other string is an offset,
    and reception starts after the event at that offset.  The scripts
    create their consumer without a checkpoint store, so the starting
    position applies at every run. *)
Inductive StartingPosition : Type :=
  | Earliest
  | Latest
  | AfterOffset (o : string).

Definition read_position (starting_position : string) : StartingPosition :=
  if decide (starting_position = "-1") then Earliest
  else if decide (starting_position = "@latest") then Latest
  else AfterOffset starting_position.

Fixpoint after_offset (o : string) (ds : list Delivery) : list Delivery :=
  match ds with
  | [] => []
  | d :: rest => if decide (offset (snd d) = o) then rest
                 else after_offset o rest
  end.

Definition selected (starting_position : string) (s : Session)
    : list Delivery :=
  match read_position starting_position with
  | Earliest => backlog s ++ arriving s
  | Latest => arriving s
  | AfterOffset o => after_offset o (backlog s ++ arriving s)
  end.

(** The callback is awaited on each delivery in turn.  An [Exception] it
    raises is handed to [on_error] when there is one and the loop goes on;
    a [BaseException] ends the loop. *)
Fixpoint dispatch {S} (on_event : PartitionContext → Event → Prog S unit)
    (on_error : option (PartitionContext → exn → Prog S unit))
    (ds : list Delivery) : Prog S unit :=
  match ds with
  | [] => mret tt
  | (pc, event) :: rest =>
      try_except (on_event pc event) is_Exception
        (λ e, match on_error with
              | Some report => report pc e
              | None => mret tt
              end) ;;
      dispatch on_event on_error rest
  end.

(** [await consumer.receive(on_event=..., on_error=...,
      starting_position=...)] *)
Definition receive {S} (on_event : PartitionContext → Event → Prog S unit)
    (on_error : option (PartitionContext → exn → Prog S unit))
    (starting_position : string) (s : Session) : Prog S unit :=
  dispatch on_event on_error
    (take (handled s) (selected starting_position s)) ;;
  match ending s with
  | Some e => raise e
  | None => mret tt
  end.

End Sdk.

(** ** [data_explorer_demo.py]: class [EventHubDataExplorer] *)

Module Explorer.

(** The body stored in a buffer entry: the decoded JSON value, or the
    raw text when decoding failed. *)
Inductive Body : Type :=
  | BodyJson (j : Json)
  | BodyStr (s : string).

(** The [event_data] dictionary built by [on_event]. *)
Record EventEntry : Type := {
  entry_partition_id : string;
  entry_offset : string;
  entry_sequence_number : Z;
  entry_enqueued_time : datetime;
  entry_properties : gmap string string;
  entry_body : Body
}.

(** [self.stats]. *)
Record Stats : Type := {
  total_events : Z;
  events_by_type : gmap string Z;
  events_by_partition : gmap string Z;
  start_time : option datetime;
  end_time : option datetime
}.

(** What [display_summary] and [display_recent_events] print.  Numbers
    are kept as values; the percentage and the rate are the exact
    quotients that the format specifiers then round. *)
Inductive Line : Type :=
  | LBanner (text : string)
  | LPeriod (t0 t1 : datetime)
  | LDuration (d : timedelta)
  | LTotal (n : Z)
  | LRate (r : Q)
  | LTypeShare (event_type : string) (count : Z) (percentage : Q)
  | LPartitionShare (partition_id : string) (count : Z) (percentage : Q)
  | LRecentHeader (limit : Z)
  | LRecentEvent (rank : Z) (entry : EventEntry)
  | LCollecting (duration_seconds : Z)
  | LNotConfigured
  | LInterrupted
  | LError (e : exn)
  | LExported (filename : string).

(** The effects of the class on the outside, in program order. *)
Inductive Action : Type :=
  | ActAppend (entry : EventEntry)
  | ActTotal
  | ActByType (event_type : string)
  | ActByPartition (partition_id : string)
  | ActCheckpoint (partition_id : string) (c : Sdk.Checkpoint)
  | ActPrint (l : Line)
  | ActWrite (filename : string) (document : Json).

(** The explorer object together with what it acts on: the checkpoints
    held by the transport and the log of its effects. *)
Record World : Type := {
  events_buffer : list EventEntry;
  stats : Stats;
  checkpoints : gmap string Sdk.Checkpoint;
  trace : list Action
}.

(** [__init__]. *)
Definition init_stats : Stats :=
  {| total_events := 0; events_by_type := ∅; events_by_partition := ∅;
     start_time := None; end_time := None |}.

Definition init : World :=
  {| events_buffer := []; stats := init_stats; checkpoints := ∅;
     trace := [] |}.

Definition log (a : Action) : Prog World unit :=
  modify (λ w, {| events_buffer := events_buffer w; stats := stats w;
                  checkpoints := checkpoints w;
                  trace := trace w ++ [a] |}).

Definition update_stats (f : Stats → Stats) : Prog World unit :=
  modify (λ w, {| events_buffer := events_buffer w; stats := f (stats w);
                  checkpoints := checkpoints w; trace := trace w |}).

Definition get_stats : Prog World Stats :=
  w ← get_store; mret (stats w).

Definition get_buffer : Prog World (list EventEntry) :=
  w ← get_store; mret (events_buffer w).

Definition print (l : Line) : Prog World unit := log (ActPrint l).

(** [self.events_buffer.append(event_data)] *)
Definition buffer_append (entry : EventEntry) : Prog World unit :=
  modify (λ w, {| events_buffer := events_buffer w ++ [entry];
                  stats := stats w; checkpoints := checkpoints w;
                  trace := trace w |}) ;;
  log (ActAppend entry).

(** [self.stats["total_events"] += 1] *)
Definition count_total : Prog World unit :=
  update_stats (λ st,
    {| total_events := total_events st + 1;
       events_by_type := events_by_type st;
       events_by_partition := events_by_partition st;
       start_time := start_time st; end_time := end_time st |}) ;;
  log ActTotal.

(** [d.get(k, 0)] on a counter dictionary. *)
Definition counter_get (k : string) (d : gmap string Z) : Z :=
  default 0 (d !! k).

(** [self.stats["events_by_type"][event_type] =
      self.stats["events_by_type"].get(event_type, 0) + 1] *)
Definition count_type (event_type : string) : Prog World unit :=
  update_stats (λ st,
    {| total_events := total_events st;
       events_by_type :=
         <[event_type := counter_get event_type (events_by_type st) + 1]>
           (events_by_type st);
       events_by_partition := events_by_partition st;
       start_time := start_time st; end_time := end_time st |}) ;;
  log (ActByType event_type).

(** [self.stats["events_by_partition"][partition_id] =
      self.stats["events_by_partition"].get(partition_id, 0) + 1] *)
Definition count_partition (partition_id : string) : Prog World unit :=
  update_stats (λ st,
    {| total_events := total_events st;
       events_by_type := events_by_type st;
       events_by_partition :=
         <[partition_id :=
             counter_get partition_id (events_by_partition st) + 1]>
           (events_by_partition st);
       start_time := start_time st; end_time := end_time st |}) ;;
  log (ActByPartition partition_id).

(** [await partition_context.update_checkpoint(event)] *)
Definition update_checkpoint (pc : Sdk.PartitionContext) (event : Sdk.Event)
    : Prog World unit :=
  let c := (Sdk.offset event, Sdk.sequence_number event) in
  log (ActCheckpoint (Sdk.partition_id pc) c) ;;
  match Sdk.checkpoint_raises pc with
  | Some e => raise e
  | None =>
      modify (λ w, {| events_buffer := events_buffer w; stats := stats w;
                      checkpoints :=
                        <[Sdk.partition_id pc := c]> (checkpoints w);
                      trace := trace w |})
  end.

(** [event.body_as_json()] and [event.body_as_str()] *)
Definition body_as_json (event : Sdk.Event) : Prog World Body :=
  match Sdk.body_as_json event with
  | Some j => mret (BodyJson j)
  | None => raise TypeError
  end.

Definition body_as_str (event : Sdk.Event) : Prog World Body :=
  match Sdk.body_as_str event with
  | Some s => mret (BodyStr s)
  | None => raise TypeError
  end.

(** [_parse_event_body]: the bare [except:] catches everything. *)
Definition _parse_event_body (event : Sdk.Event) : Prog World Body :=
  try_except (body_as_json event) (λ _, true) (λ _, body_as_str event).

(** The [on_event] closure of [collect_events]. *)
Definition on_event (pc : Sdk.PartitionContext) (event : Sdk.Event)
    : Prog World unit :=
  body ← _parse_event_body event;
  let event_data :=
    {| entry_partition_id := Sdk.partition_id pc;
       entry_offset := Sdk.offset event;
       entry_sequence_number := Sdk.sequence_number event;
       entry_enqueued_time := Sdk.enqueued_time event;
       entry_properties := Sdk.properties event;
       entry_body := body |} in
  buffer_append event_data ;;
  count_total ;;
  let event_type :=
    default "unknown" (entry_properties event_data !! "event_type") in
  count_type event_type ;;
  let partition_id := entry_partition_id event_data in
  count_partition partition_id ;;
  update_checkpoint pc event.

(** [self.stats["start_time"] = datetime.utcnow()] and the same for
    [end_time]. *)
Definition set_start_time (t : datetime) : Prog World unit :=
  update_stats (λ st,
    {| total_events := total_events st;
       events_by_type := events_by_type st;
       events_by_partition := events_by_partition st;
       start_time := Some t; end_time := end_time st |}).

Definition set_end_time (t : datetime) : Prog World unit :=
  update_stats (λ st,
    {| total_events := total_events st;
       events_by_type := events_by_type st;
       events_by_partition := events_by_partition st;
       start_time := start_time st; end_time := Some t |}).

(** [collect_events].  The task made from [_stop_after_delay] raises its
    [CancelledError] inside itself, not in this coroutine; every way the
    [receive] call can end is the session's [ending]. *)
Definition collect_events (duration_seconds : Z) (s : Sdk.Session)
    : Prog World unit :=
  set_start_time (Sdk.opened_at s) ;;
  print (LCollecting duration_seconds) ;;
  try_except (Sdk.receive on_event None "-1" s)
    is_CancelledError (λ _, mret tt) ;;
  set_end_time (Sdk.closed_at s).

(** [end_time - start_time]: a [TypeError] when either is [None]. *)
Definition sub_times (t1 t0 : option datetime) : outcome timedelta :=
  match t1, t0 with
  | Some a, Some b => Returns (datetime_sub a b)
  | _, _ => Raises TypeError
  end.

Definition item_le (a b : string * Z) : Prop :=
  String.leb (fst a) (fst b) = true.

Global Instance item_le_dec a b : Decision (item_le a b) :=
  decide (String.leb a.1 b.1 = true).

(** [sorted(d.items())]: the keys of a dictionary are distinct, so the
    order is the order of the keys. *)
Definition sorted_items (d : gmap string Z) : list (string * Z) :=
  merge_sort item_le (map_to_list d).

(** [display_summary].  The entries of a breakdown are gone through in
    the order of [map_to_list]; the order of insertion of a Python
    dictionary is not kept by the finite map. *)
Definition display_summary : Prog World unit :=
  print (LBanner "RESUMO DOS EVENTOS COLETADOS") ;;
  st ← get_stats;
  duration ← lift_outcome (sub_times (end_time st) (start_time st));
  match start_time st, end_time st with
  | Some t0, Some t1 => print (LPeriod t0 t1)
  | _, _ => mret tt
  end ;;
  print (LDuration duration) ;;
  print (LTotal (total_events st)) ;;
  (if decide (total_events st > 0) then
     events_per_second ←
       lift_outcome (py_truediv_float (total_events st)
                       (total_seconds duration));
     print (LRate events_per_second)
   else mret tt) ;;
  print (LBanner "Eventos por tipo:") ;;
  for_each (map_to_list (events_by_type st)) (λ '(event_type, count),
    q ← lift_outcome (py_truediv count (total_events st));
    print (LTypeShare event_type count (q * 100)%Q)) ;;
  print (LBanner "Eventos por partição:") ;;
  for_each (sorted_items (events_by_partition st)) (λ '(partition_id, count),
    q ← lift_outcome (py_truediv count (total_events st));
    print (LPartitionShare partition_id count (q * 100)%Q)).

(** [l[start:]] *)
Definition py_slice_from {A} (start : Z) (l : list A) : list A :=
  let n := Z.of_nat (length l) in
  let first := if decide (start < 0) then Z.max (start + n) 0
               else Z.min start n in
  drop (Z.to_nat first) l.

(** [recent_events = self.events_buffer[-limit:]
      if len(self.events_buffer) > limit else self.events_buffer] *)
Definition recent_events (limit : Z) (buffer : list EventEntry)
    : list EventEntry :=
  if decide (Z.of_nat (length buffer) > limit)
  then py_slice_from (- limit) buffer
  else buffer.

(** [enumerate(l, 1)] *)
Definition enumerate1 {A} (l : list A) : list (Z * A) :=
  imap (λ i x, (Z.of_nat i + 1, x)) l.

(** The events [display_recent_events] shows, in the order it shows them. *)
Definition shown_events (limit : Z) (buffer : list EventEntry)
    : list EventEntry :=
  reverse (recent_events limit buffer).

(** [display_recent_events] *)
Definition display_recent_events (limit : Z) : Prog World unit :=
  print (LRecentHeader limit) ;;
  buffer ← get_buffer;
  for_each (enumerate1 (shown_events limit buffer)) (λ '(i, event),
    print (LRecentEvent i event)).

(** *** [export_to_json]

    [json.dump(export_data, f, default=str)] is described by the JSON
    document it writes: dictionaries become objects, [int] and [str] are
    kept, [None] becomes [null], and a [datetime], which the encoder does
    not know, goes through [default=str]. *)

Section ExportToJson.

Variable isoformat : datetime → string.     (* [t.isoformat()] *)
Variable str_datetime : datetime → string.  (* [str(t)] *)

Definition counter_json (d : gmap string Z) : Json :=
  JObj ((λ kv, (kv.1, JInt kv.2)) <$> map_to_list d).

Definition properties_json (d : gmap string string) : Json :=
  JObj ((λ kv, (kv.1, JStr kv.2)) <$> map_to_list d).

Definition body_json (b : Body) : Json :=
  match b with
  | BodyJson j => j
  | BodyStr s => JStr s
  end.

Definition default_str (t : option datetime) : Json :=
  match t with
  | Some t => JStr (str_datetime t)
  | None => JNull
  end.

(** [t.isoformat() + "Z" if t else None] *)
Definition period_bound (t : option datetime) : Json :=
  match t with
  | Some t => JStr (isoformat t +:+ "Z")
  | None => JNull
  end.

Definition stats_json (st : Stats) : Json :=
  JObj [ ("total_events", JInt (total_events st));
         ("events_by_type", counter_json (events_by_type st));
         ("events_by_partition", counter_json (events_by_partition st));
         ("start_time", default_str (start_time st));
         ("end_time", default_str (end_time st)) ].

Definition entry_json (e : EventEntry) : Json :=
  JObj [ ("partition_id", JStr (entry_partition_id e));
         ("offset", JStr (entry_offset e));
         ("sequence_number", JInt (entry_sequence_number e));
         ("enqueued_time", JStr (str_datetime (entry_enqueued_time e)));
         ("properties", properties_json (entry_properties e));
         ("body", body_json (entry_body e)) ].

Definition export_data (now : datetime) (w : World) : Json :=
  JObj [ ("export_info",
           JObj [ ("exported_at", JStr (isoformat now +:+ "Z"));
                  ("total_events", JInt (Z.of_nat (length (events_buffer w))));
                  ("collection_period",
                    JObj [ ("start", period_bound (start_time (stats w)));
                           ("end", period_bound (end_time (stats w))) ]) ]);
         ("statistics", stats_json (stats w));
         ("events", JArr (entry_json <$> events_buffer w)) ].

(** [export_to_json]; [now] is the reading of the clock. *)
Definition export_to_json (filename : string) (now : datetime)
    : Prog World unit :=
  w ← get_store;
  log (ActWrite filename (export_data now w)) ;;
  print (LExported filename).

(** [main]: [configured] says whether both environment variables are
    set. *)
Definition main (configured : bool) (s : Sdk.Session) (now : datetime)
    : Prog World unit :=
  if negb configured then print LNotConfigured
  else
    print (LBanner "Azure Event Hub - Data Explorer Demo") ;;
    try_except2
      (collect_events 30 s ;;
       display_summary ;;
       display_recent_events 5 ;;
       export_to_json "events_export.json" now)
      is_KeyboardInterrupt
      (λ _, print LInterrupted ;; display_summary)
      is_Exception
      (λ e, print (LError e)).

End ExportToJson.

(** *** Reading an export back

    [json.load] on the written document: an object becomes a dictionary,
    filled member by member. *)

Definition loads_object (members : list (string * Json)) : gmap string Json :=
  foldl (λ d kv, <[kv.1 := kv.2]> d) ∅ members.

(** [doc[k]] *)
Definition member (k : string) (doc : Json) : option Json :=
  match doc with
  | JObj members => loads_object members !! k
  | _ => None
  end.


Definition as_int (doc : Json) : option Z :=
  match doc with
  | JInt n => Some n
  | _ => None
  end.



(** What a reader of the export finds in it. *)
Definition read_total (doc : Json) : option Z :=
  statistics ← member "statistics" doc;
  total ← member "total_events" statistics;
  as_int total.



Definition read_info_total (doc : Json) : option Z :=
  info ← member "export_info" doc;
  total ← member "total_events" info;
  as_int total.


End Explorer.

(** ** [receive_events.py] *)

Module Receiver.

Inductive Line : Type :=
  | LReceived (partition_id offset : string) (sequence_number : Z)
      (enqueued_time : datetime) (properties : gmap string string)
  | LBodyJson (j : Json)
  | LBodyStr (s : string)
  | LRule
  | LPartitionError (partition_id : string) (e : exn)
  | LNotConfigured
  | LStarting
  | LInterrupted
  | LError (e : exn).

Inductive Action : Type :=
  | ActPrint (l : Line)
  | ActCheckpoint (partition_id : string) (c : Sdk.Checkpoint).

Record World : Type := {
  checkpoints : gmap string Sdk.Checkpoint;
  trace : list Action
}.

Definition init : World := {| checkpoints := ∅; trace := [] |}.

Definition log (a : Action) : Prog World unit :=
  modify (λ w, {| checkpoints := checkpoints w; trace := trace w ++ [a] |}).

Definition print (l : Line) : Prog World unit := log (ActPrint l).

Definition update_checkpoint (pc : Sdk.PartitionContext) (event : Sdk.Event)
    : Prog World unit :=
  let c := (Sdk.offset event, Sdk.sequence_number event) in
  log (ActCheckpoint (Sdk.partition_id pc) c) ;;
  match Sdk.checkpoint_raises pc with
  | Some e => raise e
  | None =>
      modify (λ w, {| checkpoints :=
                        <[Sdk.partition_id pc := c]> (checkpoints w);
                      trace := trace w |})
  end.

Definition body_as_json (event : Sdk.Event) : Prog World Json :=
  match Sdk.body_as_json event with
  | Some j => mret j
  | None => raise TypeError
  end.

Definition body_as_str (event : Sdk.Event) : Prog World string :=
  match Sdk.body_as_str event with
  | Some s => mret s
  | None => raise TypeError
  end.

(** [on_event] *)
Definition on_event (pc : Sdk.PartitionContext) (event : Sdk.Event)
    : Prog World unit :=
  print (LReceived (Sdk.partition_id pc) (Sdk.offset event)
           (Sdk.sequence_number event) (Sdk.enqueued_time event)
           (Sdk.properties event)) ;;
  try_except
    (event_body ← body_as_json event;
     print (LBodyJson event_body))
    (λ _, true)
    (λ _, s ← body_as_str event; print (LBodyStr s)) ;;
  print LRule ;;
  update_checkpoint pc event.

(** [on_error] *)
Definition on_error (pc : Sdk.PartitionContext) (error : exn)
    : Prog World unit :=
  print (LPartitionError (Sdk.partition_id pc) error).

(** [receive_events]; [configured] says whether both environment variables
    are set. *)
Definition receive_events (configured : bool) (s : Sdk.Session)
    : Prog World unit :=
  if negb configured then print LNotConfigured
  else
    print LStarting ;;
    try_except2
      (Sdk.receive on_event (Some on_error) "-1" s)
      is_KeyboardInterrupt (λ _, print LInterrupted)
      is_Exception (λ e, print (LError e)).

End Receiver.

(** ** [demo.py]: class [EventHubDemo], the receiving side *)

Module Demo.

(** An element of [events_received]. *)
Record Received : Type := {
  partition : string;
  offset : string;
  properties : gmap string string;
  body : Json
}.

Inductive Line : Type :=
  | LReceiving (timeout_seconds : Z)
  | LEventReceived (event_type : Json)
  | LProcessingError (e : exn).

Inductive Action : Type :=
  | ActAppend (r : Received)
  | ActPrint (l : Line)
  | ActCheckpoint (partition_id : string) (c : Sdk.Checkpoint).

Record World : Type := {
  events_received : list Received;
  checkpoints : gmap string Sdk.Checkpoint;
  trace : list Action
}.

Definition init : World :=
  {| events_received := []; checkpoints := ∅; trace := [] |}.

Definition log (a : Action) : Prog World unit :=
  modify (λ w, {| events_received := events_received w;
                  checkpoints := checkpoints w;
                  trace := trace w ++ [a] |}).

Definition print (l : Line) : Prog World unit := log (ActPrint l).

(** [events_received.append(...)] *)
Definition received_append (r : Received) : Prog World unit :=
  modify (λ w, {| events_received := events_received w ++ [r];
                  checkpoints := checkpoints w; trace := trace w |}) ;;
  log (ActAppend r).

Definition update_checkpoint (pc : Sdk.PartitionContext) (event : Sdk.Event)
    : Prog World unit :=
  let c := (Sdk.offset event, Sdk.sequence_number event) in
  log (ActCheckpoint (Sdk.partition_id pc) c) ;;
  match Sdk.checkpoint_raises pc with
  | Some e => raise e
  | None =>
      modify (λ w, {| events_received := events_received w;
                      checkpoints :=
                        <[Sdk.partition_id pc := c]> (checkpoints w);
                      trace := trace w |})
  end.

Definition body_as_json (event : Sdk.Event) : Prog World Json :=
  match Sdk.body_as_json event with
  | Some j => mret j
  | None => raise TypeError
  end.

(** [event_body.get(k, default)]: only a dictionary has the method. *)
Definition dict_get (k : string) (default : Json) (event_body : Json)
    : outcome Json :=
  match event_body with
  | JObj members =>
      Returns (from_option id default
                 (foldl (λ d kv, <[kv.1 := kv.2]> d)
                    (∅ : gmap string Json) members !! k))
  | _ => Raises AttributeError
  end.

(** The [on_event] closure of [receive_demo_events]. *)
Definition on_event (pc : Sdk.PartitionContext) (event : Sdk.Event)
    : Prog World unit :=
  try_except
    (event_body ← body_as_json event;
     received_append
       {| partition := Sdk.partition_id pc;
          offset := Sdk.offset event;
          properties := Sdk.properties event;
          body := event_body |} ;;
     event_type ←
       lift_outcome (dict_get "event_type" (JStr "unknown") event_body);
     print (LEventReceived event_type) ;;
     update_checkpoint pc event)
    is_Exception
    (λ e, print (LProcessingError e)).

(** [receive_demo_events] *)
Definition receive_demo_events (timeout_seconds : Z) (s : Sdk.Session)
    : Prog World (list Received) :=
  print (LReceiving timeout_seconds) ;;
  try_except (Sdk.receive on_event None "-1" s)
    is_CancelledError (λ _, mret tt) ;;
  w ← get_store;
  mret (events_received w).

End Demo.

(** ** [send_events.py]: class [EventHubSender] *)

Module Sender.

(** The dictionary returned by [generate_sample_data]. *)
Record SampleData : Type := {
  event_id : string;
  event_type : string;
  user_id : string;
  timestamp : string;
  data : Json;
  metadata : Json
}.

(** The [EventData] handed to the producer. *)
Record Outgoing : Type := {
  body : Json;
  properties : gmap string string
}.

(** What the sender does not decide: the dictionary drawn by the [n]-th
    call of [generate_sample_data], and whether the [n]-th send raises a
    transport error. *)
Record Env : Type := {
  sample : nat → SampleData;
  send_fails : nat → bool
}.

Inductive Line : Type :=
  | LStart (num_events : Z)
  | LSent (event_id event_type : string)
  | LSendError (e : exn)
  | LDone (num_events : Z).

Inductive Action : Type :=
  | ActSend (event : Outgoing)
  | ActSleep (delay : Q)
  | ActPrint (l : Line).

Record World : Type := {
  generated : nat;            (* calls of [generate_sample_data] so far *)
  attempts : nat;             (* calls of [send_batch] so far *)
  hub : list Outgoing;        (* events the transport has accepted *)
  trace : list Action
}.

Definition init : World :=
  {| generated := 0; attempts := 0; hub := []; trace := [] |}.

Definition log (a : Action) : Prog World unit :=
  modify (λ w, {| generated := generated w; attempts := attempts w;
                  hub := hub w; trace := trace w ++ [a] |}).

Definition print (l : Line) : Prog World unit := log (ActPrint l).

(** [await asyncio.sleep(delay)] *)
Definition sleep (delay : Q) : Prog World unit := log (ActSleep delay).

(** [generate_sample_data] *)
Definition generate_sample_data (env : Env) : Prog World SampleData :=
  w ← get_store;
  modify (λ w, {| generated := S (generated w); attempts := attempts w;
                  hub := hub w; trace := trace w |}) ;;
  mret (sample env (generated w)).

(** [json.dumps(event_data)] as the document it denotes. *)
Definition dumps (event_data : SampleData) : Json :=
  JObj [ ("event_id", JStr (event_id event_data));
         ("event_type", JStr (event_type event_data));
         ("user_id", JStr (user_id event_data));
         ("timestamp", JStr (timestamp event_data));
         ("data", data event_data);
         ("metadata", metadata event_data) ].

(** [async with producer: batch = await producer.create_batch();
      batch.add(event); await producer.send_batch(batch)] *)
Definition send_batch (env : Env) (event : Outgoing) : Prog World unit :=
  w ← get_store;
  modify (λ w, {| generated := generated w; attempts := S (attempts w);
                  hub := hub w; trace := trace w |}) ;;
  log (ActSend event) ;;
  if send_fails env (attempts w) then raise EventHubError
  else modify (λ w, {| generated := generated w; attempts := attempts w;
                       hub := hub w ++ [event]; trace := trace w |}).

(** [send_single_event] *)
Definition send_single_event (env : Env) (event_data : SampleData)
    : Prog World unit :=
  try_except
    (let event_json := dumps event_data in
     let event :=
       {| body := event_json;
          properties :=
            {[ "event_type" := event_type event_data;
               "user_id" := user_id event_data;
               "timestamp" := timestamp event_data ]} |} in
     send_batch env event ;;
     print (LSent (event_id event_data) (event_type event_data)))
    is_Exception
    (λ e, print (LSendError e)).

(** [range(n)] *)
Definition py_range (n : Z) : list Z := Z.of_nat <$> seq 0 (Z.to_nat n).

(** [send_batch_events].  The producer, built from the connection string
    or from the Azure identity, is the transport of [env]. *)
Definition send_batch_events (env : Env) (num_events : Z) (delay : Q)
    : Prog World unit :=
  print (LStart num_events) ;;
  for_each (py_range num_events) (λ i,
    event_data ← generate_sample_data env;
    send_single_event env event_data ;;
    if decide (i < num_events - 1) then sleep delay else mret tt) ;;
  print (LDone num_events).

End Sender.

(** ** Observations on the explorer *)

(** The sum of the counts of a counter dictionary. *)
Definition counter_sum (d : gmap string Z) : Z :=
  map_fold (λ _ n acc, n + acc) 0 d.

(** The handler run on each delivery in turn, whatever each run's outcome. *)
Definition handle_all (ds : list Sdk.Delivery) (w : Explorer.World)
    : Explorer.World :=
  foldl (λ w d, exec (Explorer.on_event d.1 d.2) w) w ds.

(** What [_parse_event_body] returns for an event, [None] when both
    accessors raise. *)
Definition parsed (event : Sdk.Event) : option Explorer.Body :=
  match Sdk.body_as_json event with
  | Some j => Some (Explorer.BodyJson j)
  | None => Explorer.BodyStr <$> Sdk.body_as_str event
  end.

Definition entry_of (pc : Sdk.PartitionContext) (event : Sdk.Event)
    (body : Explorer.Body) : Explorer.EventEntry :=
  {| Explorer.entry_partition_id := Sdk.partition_id pc;
     Explorer.entry_offset := Sdk.offset event;
     Explorer.entry_sequence_number := Sdk.sequence_number event;
     Explorer.entry_enqueued_time := Sdk.enqueued_time event;
     Explorer.entry_properties := Sdk.properties event;
     Explorer.entry_body := body |}.

Definition type_of (event : Sdk.Event) : string :=
  default "unknown" (Sdk.properties event !! "event_type").

Definition checkpoint_of (event : Sdk.Event) : Sdk.Checkpoint :=
  (Sdk.offset event, Sdk.sequence_number event).

(** The statistics after one more event of type [k] on partition [p]. *)
Definition counted (k p : string) (st : Explorer.Stats) : Explorer.Stats :=
  {| Explorer.total_events := Explorer.total_events st + 1;
     Explorer.events_by_type :=
       <[k := Explorer.counter_get k (Explorer.events_by_type st) + 1]>
         (Explorer.events_by_type st);
     Explorer.events_by_partition :=
       <[p := Explorer.counter_get p (Explorer.events_by_partition st) + 1]>
         (Explorer.events_by_partition st);
     Explorer.start_time := Explorer.start_time st;
     Explorer.end_time := Explorer.end_time st |}.

(** The world once the handler has accounted for an event and called
    [update_checkpoint]. *)
Definition accounted (pc : Sdk.PartitionContext) (event : Sdk.Event)
    (body : Explorer.Body) (w : Explorer.World) : Explorer.World :=
  {| Explorer.events_buffer :=
       Explorer.events_buffer w ++ [entry_of pc event body];
     Explorer.stats :=
       counted (type_of event) (Sdk.partition_id pc) (Explorer.stats w);
     Explorer.checkpoints :=
       match Sdk.checkpoint_raises pc with
       | Some _ => Explorer.checkpoints w
       | None => <[Sdk.partition_id pc := checkpoint_of event]>
                   (Explorer.checkpoints w)
       end;
     Explorer.trace :=
       Explorer.trace w ++
         [ Explorer.ActAppend (entry_of pc event body);
           Explorer.ActTotal;
           Explorer.ActByType (type_of event);
           Explorer.ActByPartition (Sdk.partition_id pc);
           Explorer.ActCheckpoint (Sdk.partition_id pc)
             (checkpoint_of event) ] |}.

(** The accounting invariant of the explorer. *)
Record consistent (w : Explorer.World) : Prop := {
  by_type_total :
    counter_sum (Explorer.events_by_type (Explorer.stats w))
      = Explorer.total_events (Explorer.stats w);
  by_partition_total :
    counter_sum (Explorer.events_by_partition (Explorer.stats w))
      = Explorer.total_events (Explorer.stats w);
  buffer_total :
    Z.of_nat (length (Explorer.events_buffer w))
      = Explorer.total_events (Explorer.stats w);
  empty_at_zero :
    Explorer.total_events (Explorer.stats w) = 0 →
    Explorer.events_by_type (Explorer.stats w) = ∅ ∧
    Explorer.events_by_partition (Explorer.stats w) = ∅
}.

(** A program keeps a property of the store, whatever its outcome. *)
Definition preserves {S A} (I : S → Prop) (p : Prog S A) : Prop :=
  ∀ s, I s → I (exec p s).

(** The actions a program adds to the log. *)
Definition new_actions {A} (p : Prog Explorer.World A) (w : Explorer.World)
    : list Explorer.Action :=
  drop (length (Explorer.trace w)) (Explorer.trace (exec p w)).

Definition new_demo_actions {A} (p : Prog Demo.World A) (w : Demo.World)
    : list Demo.Action :=
  drop (length (Demo.trace w)) (Demo.trace (exec p w)).

(** A use of the explorer object: a call of one of its methods, or the
    transport calling the handler. *)
Inductive Call : Type :=
  | CallOnEvent (pc : Sdk.PartitionContext) (event : Sdk.Event)
  | CallCollect (duration_seconds : Z) (s : Sdk.Session)
  | CallSummary
  | CallRecent (limit : Z)
  | CallExport (filename : string) (now : datetime).

Section Calls.

Variable isoformat str_datetime : datetime → string.

Definition run_call (c : Call) : Prog Explorer.World unit :=
  match c with
  | CallOnEvent pc event => Explorer.on_event pc event
  | CallCollect duration_seconds s => Explorer.collect_events duration_seconds s
  | CallSummary => Explorer.display_summary
  | CallRecent limit => Explorer.display_recent_events limit
  | CallExport filename now =>
      Explorer.export_to_json isoformat str_datetime filename now
  end.

Definition run_calls (cs : list Call) (w : Explorer.World) : Explorer.World :=
  foldl (λ w c, exec (run_call c) w) w cs.

End Calls.

(** The sends a sender has attempted, in order. *)
Definition sends (l : list Sender.Action) : list Sender.Outgoing :=
  omap (λ a, match a with Sender.ActSend e => Some e | _ => None end) l.

(** The event [send_single_event] builds from a dictionary. *)
Definition outgoing (event_data : Sender.SampleData) : Sender.Outgoing :=
  {| Sender.body := Sender.dumps event_data;
     Sender.properties :=
       {[ "event_type" := Sender.event_type event_data;
          "user_id" := Sender.user_id event_data;
          "timestamp" := Sender.timestamp event_data ]} |}.

(** In a log of the explorer, every checkpoint update comes after the
    append of an entry for the same partition and position, and after the
    three updates of the statistics. *)
Definition accounted_before_checkpoint (l : list Explorer.Action) : Prop :=
  ∀ i p c, l !! i = Some (Explorer.ActCheckpoint p c) →
    ∃ entry k,
      Explorer.entry_partition_id entry = p ∧
      (Explorer.entry_offset entry, Explorer.entry_sequence_number entry)
        = c ∧
      Explorer.ActAppend entry ∈ take i l ∧
      Explorer.ActTotal ∈ take i l ∧
      Explorer.ActByType k ∈ take i l ∧
      Explorer.ActByPartition p ∈ take i l.

(** In a log of the demo, every checkpoint update comes after the append
    of an element for the same partition and offset. *)
Definition appended_before_checkpoint (l : list Demo.Action) : Prop :=
  ∀ i p c, l !! i = Some (Demo.ActCheckpoint p c) →
    ∃ r, Demo.partition r = p ∧ Demo.offset r = c.1 ∧
         Demo.ActAppend r ∈ take i l.

(** The element the demo's handler appends for an event with body [j]. *)
Definition received_of (pc : Sdk.PartitionContext) (event : Sdk.Event)
    (j : Json) : Demo.Received :=
  {| Demo.partition := Sdk.partition_id pc;
     Demo.offset := Sdk.offset event;
     Demo.properties := Sdk.properties event;
     Demo.body := j |}.

(** The outcome of a handler whose last step is [update_checkpoint]. *)
Definition checkpoint_outcome (pc : Sdk.PartitionContext) : outcome unit :=
  match Sdk.checkpoint_raises pc with
  | Some e => Raises e
  | None => Returns tt
  end.

(** The line [receive_events.on_event] prints for the body, [None] when
    both accessors raise. *)
Definition body_line (event : Sdk.Event) : option Receiver.Line :=
  match Sdk.body_as_json event with
  | Some j => Some (Receiver.LBodyJson j)
  | None => Receiver.LBodyStr <$> Sdk.body_as_str event
  end.

(** A delivery whose [update_checkpoint] raises, if anything, an
    [Exception]: nothing that would end the receive loop. *)
Definition quiet (d : Sdk.Delivery) : Prop :=
  match Sdk.checkpoint_raises d.1 with
  | Some e => is_Exception e = true
  | None => True
  end.

(** One turn of the loop of [send_batch_events]. *)
Definition batch_step (env : Sender.Env) (num_events : Z) (delay : Q)
    (i : Z) : Prog Sender.World unit :=
  event_data ← Sender.generate_sample_data env;
  Sender.send_single_event env event_data ;;
  if decide (i < num_events - 1) then Sender.sleep delay else mret tt.

(** The event sent for the [i]-th dictionary drawn. *)
Definition nth_outgoing (env : Sender.Env) (i : nat) : Sender.Outgoing :=
  outgoing (Sender.sample env i).

(** ** Sample inputs *)

Definition opening : datetime := Datetime 1700000000000000.
Definition closing : datetime := Datetime 1700000030000000.

Definition partition (id : string) : Sdk.PartitionContext :=
  {| Sdk.partition_id := id; Sdk.checkpoint_raises := None |}.

(** An event with a JSON body and an [event_type] property. *)
Definition typed_event (seq : Z) (type : string) : Sdk.Event :=
  {| Sdk.offset := "4096";
     Sdk.sequence_number := seq;
     Sdk.enqueued_time := opening;
     Sdk.properties := {[ "event_type" := type ]};
     Sdk.body_as_json := Some (JObj [("event_type", JStr type)]);
     Sdk.body_as_str := Some "{}" |}.

(** An event whose body is text that is not JSON, with no property. *)
Definition text_event (seq : Z) (text : string) : Sdk.Event :=
  {| Sdk.offset := "8192";
     Sdk.sequence_number := seq;
     Sdk.enqueued_time := opening;
     Sdk.properties := ∅;
     Sdk.body_as_json := None;
     Sdk.body_as_str := Some text |}.

(** An event whose body is neither JSON nor text that can be decoded:
    both accessors raise. *)
Definition binary_event (seq : Z) : Sdk.Event :=
  {| Sdk.offset := "12288";
     Sdk.sequence_number := seq;
     Sdk.enqueued_time := opening;
     Sdk.properties := ∅;
     Sdk.body_as_json := None;
     Sdk.body_as_str := None |}.

(** Five events on two partitions. *)
Definition five_events : list Sdk.Delivery :=
  [ (partition "0", typed_event 1 "login");
    (partition "1", typed_event 1 "purchase");
    (partition "0", typed_event 2 "login");
    (partition "1", typed_event 2 "view");
    (partition "0", typed_event 3 "login") ].

(** A session that hands over [k] of the five events and ends with [e]. *)
Definition stopped_session (k : nat) (e : option exn) : Sdk.Session :=
  {| Sdk.backlog := []; Sdk.arriving := five_events; Sdk.handled := k;
     Sdk.ending := e; Sdk.opened_at := opening;
     Sdk.closed_at := closing |}.

(** A session on a hub that holds one event enqueued before the consumer
    opens, and receives nothing afterwards. *)
Definition old_event : Sdk.Event := typed_event 7 "login".

Definition session_with_backlog : Sdk.Session :=
  {| Sdk.backlog := [(partition "0", old_event)]; Sdk.arriving := [];
     Sdk.handled := 1; Sdk.ending := Some CancelledError;
     Sdk.opened_at := opening; Sdk.closed_at := closing |}.



(** A transport that refuses the second send and accepts the others. *)
Definition sample_data (n : nat) : Sender.SampleData :=
  {| Sender.event_id := "evt_" +:+ pretty (Z.of_nat n);
     Sender.event_type := "purchase";
     Sender.user_id := "user_001";
     Sender.timestamp := "2024-01-01T00:00:00Z";
     Sender.data := JObj [];
     Sender.metadata := JObj [] |}.

Definition second_send_fails : Sender.Env :=
  {| Sender.sample := sample_data;
     Sender.send_fails := λ n, bool_decide (n = 1%nat) |}.

(** ** Further observations *)

(** The world with more actions in its log and nothing else changed. *)
Definition logged (w : Explorer.World) (l : list Explorer.Action)
    : Explorer.World :=
  {| Explorer.events_buffer := Explorer.events_buffer w;
     Explorer.stats := Explorer.stats w;
     Explorer.checkpoints := Explorer.checkpoints w;
     Explorer.trace := Explorer.trace w ++ l |}.

(** [w'] holds the data of [w]: the same buffer, statistics and
    checkpoints. *)
Definition same_data (w w' : Explorer.World) : Prop :=
  Explorer.events_buffer w' = Explorer.events_buffer w ∧
  Explorer.stats w' = Explorer.stats w ∧
  Explorer.checkpoints w' = Explorer.checkpoints w.

(** The line of the summary for an entry of a breakdown. *)
Definition type_line (total : Z) (kv : string * Z) : Explorer.Line :=
  Explorer.LTypeShare kv.1 kv.2 (inject_Z kv.2 / inject_Z total * 100)%Q.

Definition partition_line (total : Z) (kv : string * Z) : Explorer.Line :=
  Explorer.LPartitionShare kv.1 kv.2
    (inject_Z kv.2 / inject_Z total * 100)%Q.



Definition partitions_shown (l : list Explorer.Action) : list string :=
  omap (λ a, match a with
             | Explorer.ActPrint (Explorer.LPartitionShare p _ _) => Some p
             | _ => None
             end) l.

(** [count / total * 100] for an entry of a breakdown. *)
Definition percentage (total : Z) (kv : string * Z) : Q :=
  (inject_Z kv.2 / inject_Z total * 100)%Q.



(** The lines of a summary that goes through. *)
Definition summary_lines (st : Explorer.Stats) (started ended : datetime)
    : list Explorer.Line :=
  [ Explorer.LBanner "RESUMO DOS EVENTOS COLETADOS";
    Explorer.LPeriod started ended;
    Explorer.LDuration (datetime_sub ended started);
    Explorer.LTotal (Explorer.total_events st);
    Explorer.LRate
      (inject_Z (Explorer.total_events st)
         / total_seconds (datetime_sub ended started))%Q;
    Explorer.LBanner "Eventos por tipo:" ]
  ++ (type_line (Explorer.total_events st)
        <$> map_to_list (Explorer.events_by_type st))
  ++ [ Explorer.LBanner "Eventos por partição:" ]
  ++ (partition_line (Explorer.total_events st)
        <$> Explorer.sorted_items (Explorer.events_by_partition st)).

(** A session that hands over one event and whose two readings of the
    clock agree. *)
Definition instant_session : Sdk.Session :=
  {| Sdk.backlog := []; Sdk.arriving := five_events; Sdk.handled := 1;
     Sdk.ending := Some CancelledError; Sdk.opened_at := opening;
     Sdk.closed_at := opening |}.

(** A delivery that the explorer's handler goes through without raising:
    the body can be read and [update_checkpoint] succeeds. *)
Definition clean (d : Sdk.Delivery) : Prop :=
  is_Some (parsed d.2) ∧ Sdk.checkpoint_raises d.1 = None.

(** The buffer entries of the deliveries whose body can be read. *)
Definition entries_of (ds : list Sdk.Delivery) : list Explorer.EventEntry :=
  omap (λ d, entry_of d.1 d.2 <$> parsed d.2) ds.

(** The deliveries a session hands over with the starting position the
    scripts pass. *)
Definition handed_over (s : Sdk.Session) : list Sdk.Delivery :=
  take (Sdk.handled s) (Sdk.backlog s ++ Sdk.arriving s).

(** The last delivery of a list on a partition. *)
Definition last_on (p : string) (ds : list Sdk.Delivery)
    : option Sdk.Delivery :=
  last (filter (λ d, Sdk.partition_id d.1 = p) ds).

(** The documents written to a file in a log. *)
Definition written (filename : string) (l : list Explorer.Action)
    : list Json :=
  omap (λ a, match a with
             | Explorer.ActWrite f doc =>
                 if decide (f = filename) then Some doc else None
             | _ => None
             end) l.

(** The lines printed in a log. *)
Definition printed (l : list Explorer.Action) : list Explorer.Line :=
  omap (λ a, match a with Explorer.ActPrint line => Some line | _ => None end)
    l.

(** The store in which [main] has the receive loop run. *)
Definition main_session_start (s : Sdk.Session) : Explorer.World :=
  logged
    (exec (Explorer.set_start_time (Sdk.opened_at s))
       (logged Explorer.init
          [Explorer.ActPrint
             (Explorer.LBanner "Azure Event Hub - Data Explorer Demo")]))
    [Explorer.ActPrint (Explorer.LCollecting 30)].






(** A session of three events, the second with a body that cannot be
    read, ended by the user. *)
Definition mixed_session : Sdk.Session :=
  {| Sdk.backlog := [];
     Sdk.arriving :=
       [ (partition "0", typed_event 1 "login");
         (partition "1", binary_event 2);
         (partition "0", text_event 3 "plain text") ];
     Sdk.handled := 3;
     Sdk.ending := Some KeyboardInterrupt;
     Sdk.opened_at := opening;
     Sdk.closed_at := closing |}.

(** The elements the demo's handler appends for a sequence of deliveries:
    one for each event whose body is JSON. *)
Definition demo_received (ds : list Sdk.Delivery) : list Demo.Received :=
  omap (λ d, received_of d.1 d.2 <$> Sdk.body_as_json d.2) ds.

(** ** [demo.py]: the sending side and [main] *)

Module DemoScript.

(** A dictionary of [demo_events]. *)
Record DemoEvent : Type := {
  event_type : string;
  user_id : string;
  message : string;
  timestamp : string;
  data : Json
}.

(** What the script does not decide: the text of the [n]-th reading of
    the clock ([datetime.utcnow().isoformat()]), whether the [n]-th send
    raises a transport error, and what [input] raises, if anything. *)
Record Env : Type := {
  utcnow : nat → string;
  send_fails : nat → bool;
  input_raises : option exn
}.

Inductive Line : Type :=
  | LText (text : string)
  | LSentEvent (i : Z) (event_type : string)
  | LSendError (e : exn)
  | LHubName (name : string)
  | LReceivedCount (n : Z)
  | LListed (i : Z) (event_type message : Json)
  | LDemoError (e : exn).

Inductive Action : Type :=
  | ActSend (event : Sender.Outgoing)
  | ActSleep (delay : Q)
  | ActInput
  | ActPrint (l : Line).

(** The producer's side (the sends attempted so far, the events the hub
    has accepted), the consumer's side as [receive_demo_events] sees it,
    and the log of the script's own effects. *)
Record World : Type := {
  attempts : nat;
  hub : list Sender.Outgoing;
  consumer : Demo.World;
  trace : list Action
}.

Definition init : World :=
  {| attempts := 0; hub := []; consumer := Demo.init; trace := [] |}.

Definition log (a : Action) : Prog World unit :=
  modify (λ w, {| attempts := attempts w; hub := hub w;
                  consumer := consumer w; trace := trace w ++ [a] |}).

Definition print (l : Line) : Prog World unit := log (ActPrint l).

Definition sleep (delay : Q) : Prog World unit := log (ActSleep delay).

(** A method of the receiving side, run on the consumer's part of the
    store. *)
Definition with_consumer {A} (p : Prog Demo.World A) : Prog World A :=
  λ w, let (o, c) := p (consumer w) in
       (o, {| attempts := attempts w; hub := hub w; consumer := c;
              trace := trace w |}).

Definition nl : string := String (Ascii.ascii_of_nat 10) "".

(** [demo_events] *)
Definition demo_events (env : Env) : list DemoEvent :=
  [ {| event_type := "user_login"; user_id := "user_001";
       message := "Usuário fez login no sistema";
       timestamp := utcnow env 0 +:+ "Z";
       data := JObj [ ("session_id", JStr "sess_123");
                      ("ip", JStr "192.168.1.100") ] |};
    {| event_type := "purchase"; user_id := "user_002";
       message := "Compra realizada com sucesso";
       timestamp := utcnow env 1 +:+ "Z";
       data := JObj [ ("order_id", JStr "ord_456");
                      ("amount", JFloat "99.99") ] |};
    {| event_type := "page_view"; user_id := "user_003";
       message := "Página visualizada";
       timestamp := utcnow env 2 +:+ "Z";
       data := JObj [ ("page", JStr "/products");
                      ("duration", JInt 45) ] |} ].

(** [json.dumps(event_data, ensure_ascii=False)] as the document it
    denotes. *)
Definition dumps (event_data : DemoEvent) : Json :=
  JObj [ ("event_type", JStr (event_type event_data));
         ("user_id", JStr (user_id event_data));
         ("message", JStr (message event_data));
         ("timestamp", JStr (timestamp event_data));
         ("data", data event_data) ].

(** The [EventData] built for a dictionary. *)
Definition event_of (event_data : DemoEvent) : Sender.Outgoing :=
  {| Sender.body := dumps event_data;
     Sender.properties :=
       {[ "event_type" := event_type event_data;
          "user_id" := user_id event_data;
          "demo" := "true" ]} |}.

(** [batch = await producer.create_batch(); batch.add(event);
      await producer.send_batch(batch)] *)
Definition send_batch (env : Env) (event : Sender.Outgoing)
    : Prog World unit :=
  w ← get_store;
  modify (λ w, {| attempts := S (attempts w); hub := hub w;
                  consumer := consumer w; trace := trace w |}) ;;
  log (ActSend event) ;;
  if send_fails env (attempts w) then raise EventHubError
  else modify (λ w, {| attempts := attempts w; hub := hub w ++ [event];
                       consumer := consumer w; trace := trace w |}).

(** The body of the loop of [send_demo_events]. *)
Definition send_step (env : Env) (item : Z * DemoEvent) : Prog World unit :=
  let (i, event_data) := item in
  send_batch env (event_of event_data) ;;
  print (LSentEvent i (event_type event_data)) ;;
  sleep (1 # 2).

(** The [try] statement of [send_demo_events], on a list of
    dictionaries. *)
Definition send_all (env : Env) (events : list DemoEvent)
    : Prog World unit :=
  try_except
    (for_each (Explorer.enumerate1 events) (send_step env))
    is_Exception
    (λ e, print (LSendError e)).

(** [send_demo_events] *)
Definition send_demo_events (env : Env) : Prog World unit :=
  print (LText "Enviando eventos de demonstração...") ;;
  send_all env (demo_events env).

(** [show_event_hub_info] *)
Definition show_event_hub_info (event_hub_name : string)
    : Prog World unit :=
  print (LText "Informações do Azure Event Hub") ;;
  print (LText "========================================") ;;
  print (LText "Namespace: datateam2") ;;
  print (LHubName event_hub_name) ;;
  print (LText "Partitions: 32") ;;
  print (LText "Status: Active") ;;
  print (LText "Location: West Europe") ;;
  print (LText "Consumer Groups: $Default") ;;
  print (LText "").

(** [input(prompt)], whose result the script does not use. *)
Definition input (env : Env) : Prog World unit :=
  log ActInput ;;
  match input_raises env with
  | Some e => raise e
  | None => mret tt
  end.

Definition rule50 : string :=
  "==================================================".

(** One turn of the loop of [main] over the received events. *)
Definition list_event (item : Z * Demo.Received) : Prog World unit :=
  let (i, event) := item in
  t ← lift_outcome
         (Demo.dict_get "event_type" (JStr "unknown") (Demo.body event));
  m ← lift_outcome (Demo.dict_get "message" (JStr "") (Demo.body event));
  print (LListed i t m).

(** The statements of [main] after [receive_demo_events] has returned
    [events]. *)
Definition summarize (events : list Demo.Received) : Prog World unit :=
  print (LText (nl +:+ rule50)) ;;
  print (LText "RESUMO DA DEMONSTRAÇÃO") ;;
  print (LText rule50) ;;
  print (LText "Eventos enviados: 3") ;;
  print (LReceivedCount (Z.of_nat (length events))) ;;
  match events with
  | [] => mret tt
  | _ :: _ =>
      print (LText (nl +:+ "Eventos recebidos:")) ;;
      for_each (Explorer.enumerate1 events) list_event
  end ;;
  print (LText (nl +:+ "Demonstração concluída!")) ;;
  print (LText (nl +:+ "Próximos passos:")) ;;
  print (LText "   - Configure suas credenciais no arquivo .env") ;;
  print (LText "   - Use send_events.py para enviar mais eventos") ;;
  print (LText "   - Use receive_events.py para monitorar eventos") ;;
  print (LText "   - Use data_explorer_demo.py para análise detalhada") ;;
  print (LText "   - Acesse o Data Explorer no Portal do Azure").

(** [main]; [configured] says whether both environment variables are
    set, in which case [event_hub_name] is the second of them. *)
Definition main (configured : bool) (event_hub_name : string) (env : Env)
    (s : Sdk.Session) : Prog World unit :=
  if negb configured then
    print (LText "Configure EVENT_HUB_CONNECTION_STRING e EVENT_HUB_NAME no arquivo .env") ;;
    print (LText "Copie o config.example para .env e configure suas credenciais")
  else
    print (LText "Azure Event Hub - Demonstração Completa") ;;
    print (LText rule50) ;;
    show_event_hub_info event_hub_name ;;
    print (LText "Esta demonstração irá:") ;;
    print (LText "1. Enviar 3 eventos de exemplo") ;;
    print (LText "2. Receber eventos por 10 segundos") ;;
    print (LText "3. Mostrar um resumo dos eventos") ;;
    print (LText "") ;;
    input env ;;
    print (LText "") ;;
    try_except2
      (send_demo_events env ;;
       print (LText "") ;;
       print (LText "Aguardando 2 segundos para os eventos chegarem...") ;;
       sleep 2 ;;
       print (LText "") ;;
       events ← with_consumer (Demo.receive_demo_events 10 s);
       summarize events)
      is_KeyboardInterrupt
      (λ _, print (LText (nl +:+ "Demonstração interrompida pelo usuário.")))
      is_Exception
      (λ e, print (LDemoError e)).

End DemoScript.

(** The sends attempted in a log of the demonstration, in order. *)
Definition demo_sends (l : list DemoScript.Action) : list Sender.Outgoing :=
  omap (λ a, match a with DemoScript.ActSend e => Some e | _ => None end) l.

(** The lines printed in a log of the demonstration. *)
Definition demo_lines (l : list DemoScript.Action) : list DemoScript.Line :=
  omap (λ a, match a with DemoScript.ActPrint x => Some x | _ => None end) l.

(** Of a list of events sent one after the other from the [a]-th send on,
    those the hub accepts before the first transport error, and those
    whose send is attempted: the accepted ones and the one that fails. *)
Fixpoint accepted {E} (fails : nat → bool) (a : nat) (events : list E)
    : list E :=
  match events with
  | [] => []
  | e :: rest => if fails a then [] else e :: accepted fails (S a) rest
  end.

Fixpoint attempted {E} (fails : nat → bool) (a : nat) (events : list E)
    : list E :=
  match events with
  | [] => []
  | e :: rest => e :: (if fails a then [] else attempted fails (S a) rest)
  end.

(** Whether a JSON value is an object, a [dict] once loaded. *)
Definition is_object (j : Json) : bool :=
  match j with
  | JObj _ => true
  | _ => false
  end.

(** The store with more actions in the script's log. *)
Definition script_logged (w : DemoScript.World)
    (l : list DemoScript.Action) : DemoScript.World :=
  {| DemoScript.attempts := DemoScript.attempts w;
     DemoScript.hub := DemoScript.hub w;
     DemoScript.consumer := DemoScript.consumer w;
     DemoScript.trace := DemoScript.trace w ++ l |}.

(** The line [main] prints for a received element whose body is an
    object. *)
Definition listed (i : Z) (r : Demo.Received) : DemoScript.Line :=
  match Demo.dict_get "event_type" (JStr "unknown") (Demo.body r),
        Demo.dict_get "message" (JStr "") (Demo.body r) with
  | Returns t, Returns m => DemoScript.LListed i t m
  | _, _ => DemoScript.LDemoError AttributeError
  end.

(** The last line of a demonstration that went through. *)
Definition demo_last_line : DemoScript.Line :=
  DemoScript.LText "   - Acesse o Data Explorer no Portal do Azure".

(** An environment in which only the second send fails. *)
Definition demo_env : DemoScript.Env :=
  {| DemoScript.utcnow := λ _, "2023-11-14T22:13:20";
     DemoScript.send_fails := λ n, bool_decide (n = 1%nat);
     DemoScript.input_raises := None |}.

(** A session of two events with JSON bodies, the second of which is a
    list and not an object. *)
Definition list_body_event : Sdk.Event :=
  {| Sdk.offset := "16384";
     Sdk.sequence_number := 2;
     Sdk.enqueued_time := opening;
     Sdk.properties := ∅;
     Sdk.body_as_json := Some (JArr [JInt 1; JInt 2]);
     Sdk.body_as_str := Some "[1, 2]" |}.

Definition session_with_list_body : Sdk.Session :=
  {| Sdk.backlog := [];
     Sdk.arriving :=
       [ (partition "0", typed_event 1 "login");
         (partition "0", list_body_event) ];
     Sdk.handled := 2;
     Sdk.ending := Some CancelledError;
     Sdk.opened_at := opening;
     Sdk.closed_at := closing |}.

(** The lines [main] prints before and after the listing of the received
    events. *)
Definition summary_head (n : Z) : list DemoScript.Line :=
  [ DemoScript.LText (DemoScript.nl +:+ DemoScript.rule50);
    DemoScript.LText "RESUMO DA DEMONSTRAÇÃO";
    DemoScript.LText DemoScript.rule50;
    DemoScript.LText "Eventos enviados: 3";
    DemoScript.LReceivedCount n ].

Definition summary_tail : list DemoScript.Line :=
  [ DemoScript.LText (DemoScript.nl +:+ "Demonstração concluída!");
    DemoScript.LText (DemoScript.nl +:+ "Próximos passos:");
    DemoScript.LText "   - Configure suas credenciais no arquivo .env";
    DemoScript.LText "   - Use send_events.py para enviar mais eventos";
    DemoScript.LText "   - Use receive_events.py para monitorar eventos";
    DemoScript.LText "   - Use data_explorer_demo.py para análise detalhada";
    demo_last_line ].

(** ** Further observations of the sender *)

(** The lines printed and the pauses taken in a log of the sender. *)
Definition sender_lines (l : list Sender.Action) : list Sender.Line :=
  omap (λ a, match a with Sender.ActPrint x => Some x | _ => None end) l.

Definition sleeps (l : list Sender.Action) : list Q :=
  omap (λ a, match a with Sender.ActSleep d => Some d | _ => None end) l.

(** The line [send_single_event] prints for the [i]-th event of a run
    that starts with a fresh sender. *)
Definition batch_report (env : Sender.Env) (i : nat) : Sender.Line :=
  if Sender.send_fails env i then Sender.LSendError EventHubError
  else Sender.LSent (Sender.event_id (Sender.sample env i))
         (Sender.event_type (Sender.sample env i)).

(** ** Reading the events of an export back *)







(** * Properties *)

(** Unfolds the operations of the monad, so that a program applied to a
    store computes. *)
Ltac run_prog :=
  cbv [mbind mret prog_bind prog_ret try_except try_except2 raise modify
       get_store lift_outcome exec result].

(** ** Counter dictionaries *)

Lemma counter_sum_empty : counter_sum ∅ = 0.
Proof. reflexivity. Qed.

Lemma counter_sum_insert_fresh k n (d : gmap string Z) :
  d !! k = None → counter_sum (<[k := n]> d) = n + counter_sum d.
Proof.
  intros Hk. unfold counter_sum.
  rewrite map_fold_insert_L; [done | intros; lia | done].
Qed.

(** Counting one more under a key adds one to the sum, whether the key is
    new or not. *)
Lemma counter_sum_bump k (d : gmap string Z) :
  counter_sum (<[k := Explorer.counter_get k d + 1]> d) = counter_sum d + 1.
Proof.
  unfold Explorer.counter_get.
  destruct (d !! k) as [n|] eqn:E; simpl.
  - rewrite <- (insert_delete_id d k n E) at 2.
    rewrite <- (insert_delete_eq d).
    rewrite !counter_sum_insert_fresh by apply lookup_delete_eq. lia.
  - rewrite counter_sum_insert_fresh by done. lia.
Qed.

(** ** One run of the explorer's handler *)

Lemma parse_event_body_run event w :
  Explorer._parse_event_body event w =
    (match parsed event with
     | Some b => Returns b
     | None => Raises TypeError
     end, w).
Proof.
  unfold Explorer._parse_event_body, Explorer.body_as_json,
    Explorer.body_as_str, parsed.
  destruct (Sdk.body_as_json event), (Sdk.body_as_str event); reflexivity.
Qed.

Lemma on_event_run pc event w :
  Explorer.on_event pc event w =
    match parsed event with
    | None => (Raises TypeError, w)
    | Some body => (checkpoint_outcome pc, accounted pc event body w)
    end.
Proof.
  unfold Explorer.on_event, checkpoint_outcome.
  unfold mbind at 1. unfold prog_bind at 1. rewrite parse_event_body_run.
  destruct (parsed event) as [body|]; [|reflexivity].
  unfold accounted, Explorer.update_checkpoint.
  destruct (Sdk.checkpoint_raises pc);
    cbv [mbind prog_bind raise modify Explorer.buffer_append
         Explorer.count_total Explorer.count_type Explorer.count_partition
         Explorer.log Explorer.update_stats Explorer.events_buffer
         Explorer.stats Explorer.checkpoints Explorer.trace counted entry_of
         type_of checkpoint_of Explorer.entry_partition_id
         Explorer.entry_properties];
    rewrite <- !app_assoc; reflexivity.
Qed.

Lemma on_event_world pc event w :
  exec (Explorer.on_event pc event) w =
    match parsed event with
    | None => w
    | Some body => accounted pc event body w
    end.
Proof.
  unfold exec. rewrite on_event_run. by destruct (parsed event).
Qed.

(** ** Programs that keep a property of the store *)

Section Preserves.

Context {S : Type} (I : S → Prop).

Lemma preserves_ret {A} (a : A) : preserves I (mret a : Prog S A).
Proof. by intros s Hs. Qed.

Lemma preserves_raise {A} e : preserves I (raise e : Prog S A).
Proof. by intros s Hs. Qed.

Lemma preserves_lift {A} (o : outcome A) :
  preserves I (lift_outcome o : Prog S A).
Proof. by intros s Hs. Qed.

Lemma preserves_get : preserves I (get_store : Prog S S).
Proof. by intros s Hs. Qed.

Lemma preserves_bind {A B} (p : Prog S A) (f : A → Prog S B) :
  preserves I p → (∀ a, preserves I (f a)) → preserves I (p ≫= f).
Proof.
  intros Hp Hf s Hs. specialize (Hp s Hs). revert Hp.
  run_prog. destruct (p s) as [[a|e] s']; simpl; [apply Hf | done].
Qed.

Lemma preserves_try_except {A} (p : Prog S A) clause handler :
  preserves I p → (∀ e, preserves I (handler e)) →
  preserves I (try_except p clause handler).
Proof.
  intros Hp Hh s Hs. specialize (Hp s Hs). revert Hp.
  run_prog. destruct (p s) as [[a|e] s']; simpl; [done|].
  destruct (clause e); [apply Hh | done].
Qed.

Lemma preserves_try_except2 {A} (p : Prog S A) c1 h1 c2 h2 :
  preserves I p →
  (∀ e, preserves I (h1 e)) → (∀ e, preserves I (h2 e)) →
  preserves I (try_except2 p c1 h1 c2 h2).
Proof.
  intros Hp H1 H2 s Hs. specialize (Hp s Hs). revert Hp.
  run_prog. destruct (p s) as [[a|e] s']; simpl; [done|].
  destruct (c1 e); [apply H1|]. destruct (c2 e); [apply H2 | done].
Qed.

Lemma preserves_for_each {A} (l : list A) (body : A → Prog S unit) :
  (∀ x, preserves I (body x)) → preserves I (for_each l body).
Proof.
  intros Hb. induction l as [|x l IH]; simpl.
  - apply preserves_ret.
  - apply preserves_bind; [apply Hb | by intros _].
Qed.

Lemma preserves_dispatch on_event on_error ds :
  (∀ pc event, preserves I (on_event pc event)) →
  (∀ report pc e, on_error = Some report → preserves I (report pc e)) →
  preserves I (Sdk.dispatch on_event on_error ds).
Proof.
  intros Hev Herr. induction ds as [|[pc event] ds IH]; simpl.
  - apply preserves_ret.
  - apply preserves_bind; [|by intros _].
    apply preserves_try_except; [apply Hev|].
    intros e. destruct on_error as [report|] eqn:E.
    + by eapply Herr.
    + apply preserves_ret.
Qed.

Lemma preserves_receive on_event on_error starting_position s :
  (∀ pc event, preserves I (on_event pc event)) →
  (∀ report pc e, on_error = Some report → preserves I (report pc e)) →
  preserves I (Sdk.receive on_event on_error starting_position s).
Proof.
  intros Hev Herr. unfold Sdk.receive.
  apply preserves_bind; [by apply preserves_dispatch|].
  intros _.
  destruct (Sdk.ending s); [apply preserves_raise | apply preserves_ret].
Qed.

End Preserves.

(** ** The accounting invariant *)

Lemma consistent_init : consistent Explorer.init.
Proof. split; done. Qed.

Lemma consistent_accounted pc event body w :
  consistent w → consistent (accounted pc event body w).
Proof.
  intros [Ht Hp Hb Hz]. split; simpl.
  - rewrite counter_sum_bump. lia.
  - rewrite counter_sum_bump. lia.
  - rewrite length_app. simpl. lia.
  - lia.
Qed.

Lemma consistent_on_event pc event w :
  consistent w → consistent (exec (Explorer.on_event pc event) w).
Proof.
  intros Hw. rewrite on_event_world.
  destruct (parsed event); [by apply consistent_accounted | done].
Qed.

Lemma consistent_handle_all ds w :
  consistent w → consistent (handle_all ds w).
Proof.
  revert w. induction ds as [|d ds IH]; intros w Hw; [done|].
  apply IH. by apply consistent_on_event.
Qed.


Lemma consistent_same_accounts w w' :
  Explorer.events_buffer w' = Explorer.events_buffer w →
  Explorer.total_events (Explorer.stats w')
    = Explorer.total_events (Explorer.stats w) →
  Explorer.events_by_type (Explorer.stats w')
    = Explorer.events_by_type (Explorer.stats w) →
  Explorer.events_by_partition (Explorer.stats w')
    = Explorer.events_by_partition (Explorer.stats w) →
  consistent w → consistent w'.
Proof.
  intros Hb Ht Hy Hp [? ? ? ?]. split; rewrite ?Hb, ?Ht, ?Hy, ?Hp; done.
Qed.

Lemma preserves_log a : preserves consistent (Explorer.log a).
Proof. intros w. by apply consistent_same_accounts. Qed.

Lemma preserves_print l : preserves consistent (Explorer.print l).
Proof. apply preserves_log. Qed.

Lemma preserves_set_start_time t :
  preserves consistent (Explorer.set_start_time t).
Proof. intros w. by apply consistent_same_accounts. Qed.

Lemma preserves_set_end_time t :
  preserves consistent (Explorer.set_end_time t).
Proof. intros w. by apply consistent_same_accounts. Qed.

Lemma preserves_on_event pc event :
  preserves consistent (Explorer.on_event pc event).
Proof. intros w. apply consistent_on_event. Qed.

Create HintDb keeps discriminated.

#[local] Hint Resolve preserves_ret preserves_raise preserves_lift
  preserves_get preserves_log preserves_print preserves_set_start_time
  preserves_set_end_time preserves_on_event : keeps.

(** Splits a program along its binds, loops and [try] blocks; the shape
    of the program is read off the goal, nothing is unfolded. *)
Ltac keeps_step :=
  lazymatch goal with
  | |- preserves _ (mbind _ _) => apply preserves_bind; [|intros ?]
  | |- preserves _ (try_except _ _ _) =>
      apply preserves_try_except; [|intros ?]
  | |- preserves _ (try_except2 _ _ _ _ _) =>
      apply preserves_try_except2; [|intros ?|intros ?]
  | |- preserves _ (for_each _ _) => apply preserves_for_each; intros [? ?]
  | |- preserves _ (Sdk.receive _ _ _ _) =>
      apply preserves_receive; [intros ? ?|intros ? ? ? ?]
  | |- preserves _ (match ?x with _ => _ end) => destruct x
  | |- preserves _ _ => solve [auto with keeps | discriminate]
  end.

Ltac keeps := repeat keeps_step.

Lemma preserves_collect_events duration_seconds s :
  preserves consistent (Explorer.collect_events duration_seconds s).
Proof. unfold Explorer.collect_events. keeps. Qed.

Lemma preserves_display_summary :
  preserves consistent Explorer.display_summary.
Proof. unfold Explorer.display_summary, Explorer.get_stats. keeps. Qed.

Lemma preserves_display_recent_events limit :
  preserves consistent (Explorer.display_recent_events limit).
Proof.
  unfold Explorer.display_recent_events, Explorer.get_buffer. keeps.
Qed.

Lemma preserves_export_to_json isoformat str_datetime filename now :
  preserves consistent
    (Explorer.export_to_json isoformat str_datetime filename now).
Proof. unfold Explorer.export_to_json. keeps. Qed.

Lemma preserves_run_call isoformat str_datetime c :
  preserves consistent (run_call isoformat str_datetime c).
Proof.
  destruct c; simpl;
    auto using preserves_on_event, preserves_collect_events,
      preserves_display_summary, preserves_display_recent_events,
      preserves_export_to_json.
Qed.

Lemma consistent_run_calls isoformat str_datetime cs w :
  consistent w → consistent (run_calls isoformat str_datetime cs w).
Proof.
  revert w. induction cs as [|c cs IH]; intros w Hw; [done|].
  apply IH. by apply preserves_run_call.
Qed.

(** ** Sums of the breakdowns *)

(** C2. After the handler has processed any sequence of events, on any
    partitions and with or without an [event_type] property, the counts of
    [events_by_type] add up to [total_events], and so do the counts of
    [events_by_partition]. *)
Theorem breakdown_sums_equal_total (ds : list Sdk.Delivery) :
  let st := Explorer.stats (handle_all ds Explorer.init) in
  counter_sum (Explorer.events_by_type st) = Explorer.total_events st ∧
  counter_sum (Explorer.events_by_partition st) = Explorer.total_events st.
Proof.
  destruct (consistent_handle_all ds Explorer.init consistent_init)
    as [Ht Hp _ _].
  by split.
Qed.

(** The scenario of five events on two partitions. *)
Example five_events_counted :
  let st := Explorer.stats (handle_all five_events Explorer.init) in
  Explorer.total_events st = 5 ∧
  Explorer.events_by_type st
    = {[ "login" := 3; "purchase" := 1; "view" := 1 ]} ∧
  Explorer.events_by_partition st = {[ "0" := 3; "1" := 2 ]}.
Proof. split; [|split]; vm_compute; reflexivity. Qed.

(** An event without the property is counted under ["unknown"]. *)
Example untyped_event_counted :
  Explorer.events_by_type
    (Explorer.stats
       (handle_all [(partition "0", text_event 1 "hello")] Explorer.init))
    = {[ "unknown" := 1 ]}.
Proof. vm_compute. reflexivity. Qed.

(** ** Reading an export back *)

Lemma bind_some {A B} (x : A) (f : A → option B) : Some x ≫= f = f x.
Proof. reflexivity. Qed.





Section Document.

Variables (isoformat str_datetime : datetime → string).
Variables (now : datetime) (w : Explorer.World).

Local Abbreviation document :=
  (Explorer.export_data isoformat str_datetime now w).

Lemma document_statistics :
  Explorer.member "statistics" document
    = Some (Explorer.stats_json str_datetime (Explorer.stats w)).
Proof. vm_compute. reflexivity. Qed.


Lemma document_export_info :
  Explorer.member "export_info" document
    = Some (JObj
        [ ("exported_at", JStr (isoformat now +:+ "Z"));
          ("total_events",
            JInt (Z.of_nat (length (Explorer.events_buffer w))));
          ("collection_period",
            JObj [ ("start", Explorer.period_bound isoformat
                               (Explorer.start_time (Explorer.stats w)));
                   ("end", Explorer.period_bound isoformat
                             (Explorer.end_time (Explorer.stats w))) ]) ]).
Proof. vm_compute. reflexivity. Qed.

Lemma export_info_total_events (n : Z) (exported_at period : Json) :
  Explorer.member "total_events"
      (JObj [ ("exported_at", exported_at); ("total_events", JInt n);
              ("collection_period", period) ])
    = Some (JInt n).
Proof. vm_compute. reflexivity. Qed.

Lemma statistics_total_events st :
  Explorer.member "total_events" (Explorer.stats_json str_datetime st)
    = Some (JInt (Explorer.total_events st)).
Proof. vm_compute. reflexivity. Qed.



End Document.



(** ** The buffer and the total *)

(** C10. After any sequence of uses of the explorer (handler runs, whole
    collection sessions whatever their ending, summaries, listings and
    exports), the length of the event buffer is [total_events]; hence the
    [total_events] that an export writes under [export_info] is the one it
    writes under [statistics]. *)
Theorem buffer_length_is_total isoformat str_datetime (cs : list Call)
    (now : datetime) :
  let w := run_calls isoformat str_datetime cs Explorer.init in
  let document := Explorer.export_data isoformat str_datetime now w in
  Z.of_nat (length (Explorer.events_buffer w))
    = Explorer.total_events (Explorer.stats w) ∧
  Explorer.read_info_total document = Explorer.read_total document.
Proof.
  intros w document.
  destruct (consistent_run_calls isoformat str_datetime cs Explorer.init
              consistent_init) as [_ _ Hb _].
  fold w in Hb. split; [exact Hb|].
  unfold document, Explorer.read_info_total, Explorer.read_total.
  rewrite document_statistics, document_export_info, !bind_some.
  rewrite statistics_total_events, export_info_total_events, !bind_some.
  cbn [Explorer.as_int]. by rewrite Hb.
Qed.

(** ** Order of the handler's effects *)

Lemma on_event_actions pc event w :
  new_actions (Explorer.on_event pc event) w =
    match parsed event with
    | None => []
    | Some body =>
        [ Explorer.ActAppend (entry_of pc event body);
          Explorer.ActTotal;
          Explorer.ActByType (type_of event);
          Explorer.ActByPartition (Sdk.partition_id pc);
          Explorer.ActCheckpoint (Sdk.partition_id pc)
            (checkpoint_of event) ]
    end.
Proof.
  unfold new_actions. rewrite on_event_world.
  destruct (parsed event); [apply drop_app_length | by apply drop_all].
Qed.

Lemma demo_on_event_run pc event w :
  Demo.on_event pc event w =
    let log l :=
      {| Demo.events_received := Demo.events_received w;
         Demo.checkpoints := Demo.checkpoints w;
         Demo.trace := Demo.trace w ++ l |} in
    let keep j l ck :=
      {| Demo.events_received :=
           Demo.events_received w ++ [received_of pc event j];
         Demo.checkpoints := ck;
         Demo.trace :=
           Demo.trace w ++ Demo.ActAppend (received_of pc event j) :: l |} in
    match Sdk.body_as_json event with
    | None =>
        (Returns tt, log [Demo.ActPrint (Demo.LProcessingError TypeError)])
    | Some j =>
        match Demo.dict_get "event_type" (JStr "unknown") j with
        | Raises e =>
            (Returns tt,
             keep j [Demo.ActPrint (Demo.LProcessingError AttributeError)]
               (Demo.checkpoints w))
        | Returns t =>
            let seen :=
              [ Demo.ActPrint (Demo.LEventReceived t);
                Demo.ActCheckpoint (Sdk.partition_id pc)
                  (checkpoint_of event) ] in
            match Sdk.checkpoint_raises pc with
            | None =>
                (Returns tt,
                 keep j seen
                   (<[Sdk.partition_id pc := checkpoint_of event]>
                      (Demo.checkpoints w)))
            | Some e =>
                if is_Exception e
                then (Returns tt,
                      keep j (seen ++
                                [Demo.ActPrint (Demo.LProcessingError e)])
                        (Demo.checkpoints w))
                else (Raises e, keep j seen (Demo.checkpoints w))
            end
        end
    end.
Proof.
  unfold Demo.on_event, Demo.body_as_json, Demo.update_checkpoint.
  destruct (Sdk.body_as_json event) as [j|].
  - destruct j; try
      (cbv [try_except mbind prog_bind mret prog_ret raise modify
            lift_outcome Demo.dict_get Demo.received_append Demo.log
            Demo.print Demo.events_received Demo.checkpoints Demo.trace
            is_Exception received_of];
       rewrite <- !app_assoc; reflexivity).
    destruct (Sdk.checkpoint_raises pc) as [e|];
      [destruct (is_Exception e) eqn:He|];
      cbv [try_except mbind prog_bind mret prog_ret raise modify
           lift_outcome Demo.dict_get Demo.received_append Demo.log
           Demo.print Demo.update_checkpoint Demo.events_received
           Demo.checkpoints Demo.trace received_of checkpoint_of];
      rewrite ?He; rewrite <- !app_assoc; reflexivity.
  - reflexivity.
Qed.

Lemma receiver_on_event_run pc event w :
  Receiver.on_event pc event w =
    let seen :=
      Receiver.ActPrint
        (Receiver.LReceived (Sdk.partition_id pc) (Sdk.offset event)
           (Sdk.sequence_number event) (Sdk.enqueued_time event)
           (Sdk.properties event)) in
    match body_line event with
    | None =>
        (Raises TypeError,
         {| Receiver.checkpoints := Receiver.checkpoints w;
            Receiver.trace := Receiver.trace w ++ [seen] |})
    | Some line =>
        (checkpoint_outcome pc,
         {| Receiver.checkpoints :=
              match Sdk.checkpoint_raises pc with
              | Some _ => Receiver.checkpoints w
              | None => <[Sdk.partition_id pc := checkpoint_of event]>
                          (Receiver.checkpoints w)
              end;
            Receiver.trace :=
              Receiver.trace w ++
                [ seen; Receiver.ActPrint line;
                  Receiver.ActPrint Receiver.LRule;
                  Receiver.ActCheckpoint (Sdk.partition_id pc)
                    (checkpoint_of event) ] |})
    end.
Proof.
  unfold Receiver.on_event, Receiver.body_as_json, Receiver.body_as_str,
    Receiver.update_checkpoint, body_line, checkpoint_outcome.
  destruct (Sdk.body_as_json event), (Sdk.body_as_str event);
    try destruct (Sdk.checkpoint_raises pc);
    cbv [try_except mbind prog_bind mret prog_ret raise modify fmap
         option_fmap option_map Receiver.log Receiver.print
         Receiver.update_checkpoint Receiver.checkpoints Receiver.trace
         checkpoint_of];
    rewrite <- ?app_assoc; reflexivity.
Qed.

(** Finds an action in a list that is written out. *)
Ltac find_action :=
  cbn [take];
  repeat first [ apply list_elem_of_here | apply list_elem_of_further ].

(** Goes through the positions of a list that is written out, keeping
    those where the looked-up action can be the one named in [H]. *)
Ltac at_position i H :=
  repeat (destruct i as [|i]; cbn [lookup list_lookup] in H;
          try discriminate H).

Lemma explorer_order pc event w :
  accounted_before_checkpoint (new_actions (Explorer.on_event pc event) w).
Proof.
  rewrite on_event_actions. intros i p c Hi.
  destruct (parsed event) as [body|]; [|by destruct i].
  at_position i Hi. injection Hi as <- <-.
  exists (entry_of pc event body), (type_of event).
  repeat split; find_action.
Qed.

Lemma demo_order pc event w :
  appended_before_checkpoint (new_demo_actions (Demo.on_event pc event) w).
Proof.
  unfold new_demo_actions, exec. rewrite demo_on_event_run.
  intros i p c.
  destruct (Sdk.body_as_json event) as [j|]; cbv zeta;
    [destruct (Demo.dict_get "event_type" (JStr "unknown") j) as [t|?];
     [destruct (Sdk.checkpoint_raises pc) as [e|];
      [destruct (is_Exception e)|]|]|];
    cbn [snd Demo.trace]; rewrite drop_app_length; intros Hi;
    at_position i Hi; injection Hi as <- <-;
    exists (received_of pc event j); repeat split; find_action.
Qed.

(** C9. In every run of the handler the checkpoint of an event is updated
    only after the event has been accounted for: in the log of one run of
    the explorer's handler, which is empty when the body cannot be read
    and otherwise has exactly five actions, the checkpoint update comes
    after the append to the buffer and after the updates of the total, of
    the count by type and of the count by partition; in the log of one run
    of the demo's handler, which keeps no statistics, it comes after the
    append. *)
Theorem checkpoint_follows_accounting pc event w dw :
  new_actions (Explorer.on_event pc event) w =
    match parsed event with
    | None => []
    | Some body =>
        [ Explorer.ActAppend (entry_of pc event body);
          Explorer.ActTotal;
          Explorer.ActByType (type_of event);
          Explorer.ActByPartition (Sdk.partition_id pc);
          Explorer.ActCheckpoint (Sdk.partition_id pc)
            (checkpoint_of event) ]
    end ∧
  accounted_before_checkpoint (new_actions (Explorer.on_event pc event) w) ∧
  appended_before_checkpoint
    (new_demo_actions (Demo.on_event pc event) dw).
Proof.
  split; [apply on_event_actions|].
  split; [apply explorer_order | apply demo_order].
Qed.

(** The checkpoint is indeed updated, last, when the body can be read. *)
Example checkpoint_is_last :
  last (new_actions
          (Explorer.on_event (partition "0") (typed_event 1 "login"))
          Explorer.init)
    = Some (Explorer.ActCheckpoint "0" ("4096", 1)).
Proof. rewrite on_event_actions. reflexivity. Qed.

(** ** A body that is not JSON *)

(** C8 as stated fails for [demo.py], whose handler does not fall back to
    the text of the body: an event whose body is text but not JSON is
    reported and skipped, neither recorded in [events_received] nor
    checkpointed. *)
Lemma demo_skips_unparsed_event :
  let event := text_event 1 "hello" in
  let w := exec (Demo.on_event (partition "0") event) Demo.init in
  Sdk.body_as_json event = None ∧
  Sdk.body_as_str event = Some "hello" ∧
  Demo.events_received w = [] ∧
  Demo.checkpoints w = ∅ ∧
  Demo.trace w = [Demo.ActPrint (Demo.LProcessingError TypeError)].
Proof. repeat split. Qed.

(** C8, amended. For an event whose body is not JSON but can be decoded as
    text: the handlers of [data_explorer_demo.py] and [receive_events.py]
    fall back to the text, go on to process the event like any other (the
    explorer appends it with the text as body and counts it, the receiver
    prints the text, both update the checkpoint), and raise nothing but
    what [update_checkpoint] raises; the handler of [demo.py] catches the
    failure and returns, but skips the event: it is not appended to
    [events_received] and its checkpoint is not updated. *)
Theorem unparsed_body_is_not_fatal pc event text w rw dw :
  Sdk.body_as_json event = None →
  Sdk.body_as_str event = Some text →
  (result (Explorer.on_event pc event) w = checkpoint_outcome pc ∧
   Explorer.events_buffer (exec (Explorer.on_event pc event) w)
     = Explorer.events_buffer w
         ++ [entry_of pc event (Explorer.BodyStr text)] ∧
   Explorer.stats (exec (Explorer.on_event pc event) w)
     = counted (type_of event) (Sdk.partition_id pc) (Explorer.stats w) ∧
   Explorer.ActCheckpoint (Sdk.partition_id pc) (checkpoint_of event)
     ∈ Explorer.trace (exec (Explorer.on_event pc event) w)) ∧
  (result (Receiver.on_event pc event) rw = checkpoint_outcome pc ∧
   Receiver.ActPrint (Receiver.LBodyStr text)
     ∈ Receiver.trace (exec (Receiver.on_event pc event) rw) ∧
   Receiver.ActCheckpoint (Sdk.partition_id pc) (checkpoint_of event)
     ∈ Receiver.trace (exec (Receiver.on_event pc event) rw)) ∧
  (result (Demo.on_event pc event) dw = Returns tt ∧
   Demo.events_received (exec (Demo.on_event pc event) dw)
     = Demo.events_received dw ∧
   Demo.checkpoints (exec (Demo.on_event pc event) dw)
     = Demo.checkpoints dw).
Proof.
  intros Hjson Hstr.
  assert (parsed event = Some (Explorer.BodyStr text)) as Hp.
  { unfold parsed. by rewrite Hjson, Hstr. }
  assert (body_line event = Some (Receiver.LBodyStr text)) as Hl.
  { unfold body_line. by rewrite Hjson, Hstr. }
  unfold result, exec.
  rewrite on_event_run, receiver_on_event_run, demo_on_event_run.
  rewrite Hp, Hl, Hjson. cbv zeta.
  cbn [fst snd accounted Explorer.events_buffer Explorer.stats
       Explorer.trace Receiver.trace Demo.events_received Demo.checkpoints].
  repeat split; apply elem_of_app; right; find_action.
Qed.

(** When the body cannot be decoded as text either, [body_as_str] raises
    outside any [try] and the error leaves the explorer's handler, the
    event being neither buffered nor counted. *)
Example undecodable_body_leaves_handler :
  Explorer.on_event (partition "0") (binary_event 1) Explorer.init
    = (Raises TypeError, Explorer.init).
Proof. reflexivity. Qed.

(** The amended C8 on an event whose body is the text [hello]. *)
Lemma unparsed_body_is_not_fatal_witness :
  Sdk.body_as_json (text_event 1 "hello") = None ∧
  Sdk.body_as_str (text_event 1 "hello") = Some "hello" ∧
  Explorer.events_buffer
    (exec (Explorer.on_event (partition "0") (text_event 1 "hello"))
       Explorer.init)
    = [entry_of (partition "0") (text_event 1 "hello")
         (Explorer.BodyStr "hello")].
Proof.
  split; [reflexivity|]. split; [reflexivity|].
  apply (unparsed_body_is_not_fatal (partition "0") (text_event 1 "hello")
           "hello" Explorer.init Receiver.init Demo.init);
    reflexivity.
Defined.

(** ** The summary of a collection without events *)






(** ** The most recent events *)

(** For a positive limit the listing shows the [min limit (length buffer)]
    most recently appended events, the most recent first. *)
Lemma shown_events_positive limit buffer :
  0 < limit →
  Explorer.shown_events limit buffer
    = take (Z.to_nat limit) (reverse buffer).
Proof.
  intros Hlimit. unfold Explorer.shown_events, Explorer.recent_events,
    Explorer.py_slice_from.
  destruct (decide (Z.of_nat (length buffer) > limit)) as [Hlong|Hshort].
  - destruct (decide (- limit < 0)) as [_|?]; [|lia].
    rewrite take_reverse. do 2 f_equal. lia.
  - rewrite take_ge; [done|]. rewrite length_reverse. lia.
Qed.

Lemma shown_events_positive_length limit buffer :
  0 < limit →
  Z.of_nat (length (Explorer.shown_events limit buffer))
    = Z.min limit (Z.of_nat (length buffer)).
Proof.
  intros Hlimit. rewrite shown_events_positive by done.
  rewrite length_take, length_reverse. lia.
Qed.

(** C4 at the limit zero: [buffer[-0:]] is the whole buffer, so the
    listing announced as the last 0 events shows every event of the
    buffer, not [min 0 (length buffer) = 0] of them. *)
Theorem shown_events_limit_zero buffer :
  Explorer.shown_events 0 buffer = reverse buffer.
Proof.
  unfold Explorer.shown_events, Explorer.recent_events,
    Explorer.py_slice_from.
  destruct (decide (Z.of_nat (length buffer) > 0)); [|done].
  destruct (decide (- 0 < 0)); [lia|].
  by rewrite Z.min_l by lia.
Qed.

Example three_events_shown_at_limit_zero :
  let buffer :=
    [ entry_of (partition "0") (typed_event 1 "login") (Explorer.BodyStr "a");
      entry_of (partition "0") (typed_event 2 "login") (Explorer.BodyStr "b");
      entry_of (partition "1") (typed_event 1 "view") (Explorer.BodyStr "c") ]
  in
  length (Explorer.shown_events 0 buffer) = 3%nat.
Proof. reflexivity. Qed.

(** ** A session that is interrupted *)

(** The handler does not touch [end_time], and neither does the receive
    loop. *)
Lemma on_event_keeps_end_time t pc event :
  preserves (λ w, Explorer.end_time (Explorer.stats w) = t)
    (Explorer.on_event pc event).
Proof.
  intros w Hw. rewrite on_event_world. by destruct (parsed event).
Qed.

Lemma dispatch_keeps_end_time t ds :
  preserves (λ w, Explorer.end_time (Explorer.stats w) = t)
    (Sdk.dispatch Explorer.on_event None ds).
Proof.
  apply preserves_dispatch; [apply on_event_keeps_end_time | done].
Qed.

(** The receive loop goes through its deliveries when no handler run
    raises a [BaseException]. *)
Lemma dispatch_returns ds w :
  Forall quiet ds →
  result (Sdk.dispatch Explorer.on_event None ds) w = Returns tt.
Proof.
  intros Hds. revert w.
  induction Hds as [|[pc event] ds Hd _ IH]; intros w; [done|].
  unfold result in *. cbn [Sdk.dispatch].
  cbv [mbind prog_bind try_except]. rewrite on_event_run.
  unfold quiet, checkpoint_outcome in *. cbn [fst] in Hd.
  destruct (parsed event); [destruct (Sdk.checkpoint_raises pc)|];
    cbn [is_Exception]; rewrite ?Hd; apply IH.
Qed.

(** A session ended by [asyncio.CancelledError] leaves [end_time] set. *)
Lemma cancelled_session_sets_end_time duration_seconds s w :
  Forall quiet (take (Sdk.handled s) (Sdk.selected "-1" s)) →
  Sdk.ending s = Some CancelledError →
  Explorer.end_time
    (Explorer.stats (exec (Explorer.collect_events duration_seconds s) w))
    = Some (Sdk.closed_at s).
Proof.
  intros Hquiet Hend.
  cbv [Explorer.collect_events Sdk.receive exec mbind prog_bind try_except
       Explorer.print Explorer.log Explorer.set_start_time
       Explorer.set_end_time Explorer.update_stats modify].
  rewrite Hend.
  match goal with
  | |- context [Sdk.dispatch _ _ _ ?w0] =>
      pose proof (dispatch_returns _ w0 Hquiet) as Hr
  end.
  unfold result in Hr.
  destruct (Sdk.dispatch _ _ _ _) as [[[]|e] w']; [reflexivity|].
  discriminate Hr.
Qed.

(** A session ended by anything else than [asyncio.CancelledError] leaves
    [collect_events] by the exception, with [end_time] as it was. *)
Lemma interrupted_session_keeps_end_time duration_seconds s w e :
  Forall quiet (take (Sdk.handled s) (Sdk.selected "-1" s)) →
  Sdk.ending s = Some e →
  is_CancelledError e = false →
  result (Explorer.collect_events duration_seconds s) w = Raises e ∧
  Explorer.end_time
    (Explorer.stats (exec (Explorer.collect_events duration_seconds s) w))
    = Explorer.end_time (Explorer.stats w).
Proof.
  intros Hquiet Hend He.
  cbv [Explorer.collect_events Sdk.receive exec result mbind prog_bind
       try_except Explorer.print Explorer.log Explorer.set_start_time
       Explorer.set_end_time Explorer.update_stats modify].
  rewrite Hend.
  match goal with
  | |- context [Sdk.dispatch _ _ _ ?w0] => set (w1 := w0)
  end.
  assert (Explorer.end_time (Explorer.stats w1)
            = Explorer.end_time (Explorer.stats w)) as H1 by reflexivity.
  clearbody w1.
  pose proof (dispatch_returns _ w1 Hquiet) as Hr.
  pose proof (dispatch_keeps_end_time
                (Explorer.end_time (Explorer.stats w))
                (take (Sdk.handled s) (Sdk.selected "-1" s)) w1 H1) as Hk.
  unfold result, exec in Hr, Hk.
  destruct (Sdk.dispatch _ _ _ _) as [[[]|e'] w2]; [|discriminate Hr].
  cbn [raise fst snd] in *. rewrite He. by cbn [fst snd].
Qed.

(** The same session ended by [asyncio.CancelledError] after two of the
    five events: [end_time] is set and the buffer holds the two entries. *)
Example cancelled_after_two_of_five :
  let w :=
    exec (Explorer.collect_events 30 (stopped_session 2 (Some CancelledError)))
      Explorer.init in
  Explorer.end_time (Explorer.stats w) = Some closing ∧
  length (Explorer.events_buffer w) = 2%nat ∧
  Explorer.total_events (Explorer.stats w) = 2.
Proof. split; [|split]; vm_compute; reflexivity. Qed.

(** C5 at a user interrupt.  [collect_events] catches
    [asyncio.CancelledError] only: a [KeyboardInterrupt] after two of five
    events leaves the function before [end_time] is assigned.  The buffer
    holds the two entries, [end_time] is still [None], and the handler of
    [KeyboardInterrupt] in [main], which calls [display_summary], ends in
    the [TypeError] of [None - start_time]. *)
Theorem keyboard_interrupt_leaves_end_time_unset :
  let s := stopped_session 2 (Some KeyboardInterrupt) in
  let w := exec (Explorer.collect_events 30 s) Explorer.init in
  result (Explorer.collect_events 30 s) Explorer.init
    = Raises KeyboardInterrupt ∧
  Explorer.end_time (Explorer.stats w) = None ∧
  Explorer.events_buffer w
    = [ entry_of (partition "0") (typed_event 1 "login")
          (Explorer.BodyJson (JObj [("event_type", JStr "login")]));
        entry_of (partition "1") (typed_event 1 "purchase")
          (Explorer.BodyJson (JObj [("event_type", JStr "purchase")])) ] ∧
  result (Explorer.main (λ _, "") (λ _, "") true s closing) Explorer.init
    = Raises TypeError.
Proof. split; [|split; [|split]]; vm_compute; reflexivity. Qed.

(** ** The starting position *)

(** With ["-1"] the transport hands over the partition stream from its
    beginning: the events enqueued before the session, then the others. *)
Lemma selected_from_start s :
  Sdk.selected "-1" s = Sdk.backlog s ++ Sdk.arriving s.
Proof. reflexivity. Qed.

Lemma selected_latest s : Sdk.selected "@latest" s = Sdk.arriving s.
Proof. reflexivity. Qed.

(** C1 on a hub that holds one event enqueued before the session opens.
    The three harnesses pass ["-1"], and the event of the backlog reaches
    each handler: the explorer buffers it, the receiver prints it, the demo
    returns it. *)
Theorem backlog_event_is_delivered :
  let s := session_with_backlog in
  let pc := partition "0" in
  Sdk.arriving s = [] ∧
  Explorer.events_buffer (exec (Explorer.collect_events 30 s) Explorer.init)
    = [entry_of pc old_event
         (Explorer.BodyJson (JObj [("event_type", JStr "login")]))] ∧
  Receiver.ActCheckpoint "0" (checkpoint_of old_event)
    ∈ Receiver.trace (exec (Receiver.receive_events true s) Receiver.init) ∧
  result (Demo.receive_demo_events 10 s) Demo.init
    = Returns [received_of pc old_event
                 (JObj [("event_type", JStr "login")])].
Proof.
  split; [reflexivity|]. split; [vm_compute; reflexivity|].
  split; [|vm_compute; reflexivity].
  vm_compute. find_action.
Qed.

(** ** A transport error during a batch *)

Lemma sends_app l1 l2 : sends (l1 ++ l2) = sends l1 ++ sends l2.
Proof. apply omap_app. Qed.

Lemma batch_step_run env num_events delay i w :
  ∃ w',
    batch_step env num_events delay i w = (Returns tt, w') ∧
    Sender.generated w' = S (Sender.generated w) ∧
    Sender.attempts w' = S (Sender.attempts w) ∧
    sends (Sender.trace w')
      = sends (Sender.trace w) ++ [nth_outgoing env (Sender.generated w)] ∧
    Sender.hub w'
      = Sender.hub w ++
          (if Sender.send_fails env (Sender.attempts w) then []
           else [nth_outgoing env (Sender.generated w)]).
Proof.
  cbv [batch_step Sender.generate_sample_data Sender.send_single_event
       Sender.send_batch Sender.sleep Sender.print Sender.log try_except
       mbind prog_bind mret prog_ret raise modify get_store
       Sender.generated Sender.attempts Sender.hub Sender.trace
       nth_outgoing outgoing].
  destruct (Sender.send_fails env _);
    destruct (decide (i < num_events - 1));
    cbn [is_Exception];
    (eexists; split; [reflexivity|]);
    cbn [Sender.generated Sender.attempts Sender.hub Sender.trace];
    rewrite ?sends_app, ?app_nil_r; repeat split;
    cbn [sends omap list_omap]; by rewrite ?app_nil_r.
Qed.

Lemma batch_loop_run env num_events delay (k a : nat) w :
  Sender.generated w = a → Sender.attempts w = a →
  ∃ w',
    for_each (Z.of_nat <$> seq a k) (batch_step env num_events delay) w
      = (Returns tt, w') ∧
    sends (Sender.trace w')
      = sends (Sender.trace w) ++ (nth_outgoing env <$> seq a k) ∧
    Sender.hub w'
      = Sender.hub w ++
          (nth_outgoing env
             <$> filter (λ i, Sender.send_fails env i = false) (seq a k)).
Proof.
  revert a w. induction k as [|k IH]; intros a w Hg Ha.
  - exists w. cbn [seq fmap list_fmap for_each]. rewrite filter_nil.
    cbn [fmap list_fmap]. by rewrite !app_nil_r.
  - destruct (batch_step_run env num_events delay (Z.of_nat a) w)
      as (w1 & Hrun & Hg1 & Ha1 & Hs1 & Hh1).
    destruct (IH (S a) w1) as (w2 & Hloop & Hs2 & Hh2); [lia..|].
    exists w2. split; [|split].
    + cbn [seq fmap list_fmap for_each]. cbv [mbind prog_bind].
      rewrite Hrun. exact Hloop.
    + rewrite Hs2, Hs1, Hg. cbn [seq fmap list_fmap].
      by rewrite <- app_assoc.
    + rewrite Hh2, Hh1, Hg, Ha. cbn [seq]. rewrite filter_cons.
      destruct (Sender.send_fails env a);
        destruct (decide _) as [?|?]; try done;
        cbn [fmap list_fmap]; by rewrite <- app_assoc.
Qed.

(** C7 as stated fails: after a transport error on the second of three
    sends, the third event is sent all the same. *)
Lemma batch_goes_on_after_error :
  let w :=
    exec (Sender.send_batch_events second_send_fails 3 1) Sender.init in
  Sender.send_fails second_send_fails 1 = true ∧
  sends (Sender.trace w)
    = [ outgoing (sample_data 0); outgoing (sample_data 1);
        outgoing (sample_data 2) ] ∧
  Sender.hub w = [ outgoing (sample_data 0); outgoing (sample_data 2) ].
Proof. split; [|split]; vm_compute; reflexivity. Qed.

(** C7, amended. A transport error while sending an event is caught and
    reported by [send_single_event], and the batch goes on: whatever sends
    fail, [send_batch_events] returns normally having attempted each of
    the events once, in order; the hub holds those whose send did not
    fail; nothing is sent a second time. *)
Theorem batch_attempts_every_event_once env num_events delay :
  let run := Sender.send_batch_events env num_events delay in
  let n := Z.to_nat num_events in
  result run Sender.init = Returns tt ∧
  sends (Sender.trace (exec run Sender.init))
    = nth_outgoing env <$> seq 0 n ∧
  Sender.hub (exec run Sender.init)
    = nth_outgoing env
        <$> filter (λ i, Sender.send_fails env i = false) (seq 0 n).
Proof.
  intros run n.
  pose (w0 := exec (Sender.print (Sender.LStart num_events)) Sender.init).
  destruct (batch_loop_run env num_events delay n 0 w0)
    as (w1 & Hloop & Hs & Hh); [done..|].
  unfold result, exec, run, Sender.send_batch_events, Sender.py_range.
  fold n. change (λ i : Z, _) with (batch_step env num_events delay).
  cbv [mbind prog_bind]. fold w0 in Hloop.
  change (Sender.print (Sender.LStart num_events) Sender.init)
    with (Returns tt, w0).
  cbv iota beta. rewrite Hloop.
  cbv [Sender.print Sender.log modify fst snd].
  cbn [Sender.trace Sender.hub].
  rewrite sends_app, Hs, Hh. cbn [sends omap list_omap].
  by rewrite app_nil_r.
Qed.

(** * Further properties *)

(** ** Printing loops *)

Lemma logged_nil w : logged w [] = w.
Proof. destruct w. unfold logged. cbn. by rewrite app_nil_r. Qed.

Lemma logged_logged w l1 l2 : logged (logged w l1) l2 = logged w (l1 ++ l2).
Proof. unfold logged. cbn. by rewrite app_assoc. Qed.

Lemma print_run l w :
  Explorer.print l w = (Returns tt, logged w [Explorer.ActPrint l]).
Proof. reflexivity. Qed.

(** A loop whose body prints one line for each element. *)
Lemma for_each_prints {A} (l : list A)
    (body : A → Prog Explorer.World unit) (line : A → Explorer.Line) w :
  (∀ x w', body x w' = Explorer.print (line x) w') →
  for_each l body w
    = (Returns tt, logged w (Explorer.ActPrint <$> (line <$> l))).
Proof.
  intros Hbody. revert w. induction l as [|x l IH]; intros w.
  - cbn [for_each fmap list_fmap]. by rewrite logged_nil.
  - cbn [for_each]. unfold mbind, prog_bind at 1.
    rewrite Hbody, print_run, IH, logged_logged. reflexivity.
Qed.

(** ** The summary of a collection with events *)

Lemma seconds_not_zero d :
  delta_us d ≠ 0 → Qeq_bool (total_seconds d) 0 = false.
Proof.
  intros Hd. destruct (Qeq_bool _ _) eqn:E; [|done].
  apply Qeq_bool_iff in E. unfold Qeq, total_seconds in E.
  cbn [Qnum Qden] in E. lia.
Qed.

Lemma truediv_nonzero a b :
  b ≠ 0 → py_truediv a b = Returns (inject_Z a / inject_Z b)%Q.
Proof. intros Hb. unfold py_truediv. by destruct (decide (b = 0)). Qed.

Lemma display_summary_run w started ended :
  Explorer.total_events (Explorer.stats w) > 0 →
  Explorer.start_time (Explorer.stats w) = Some started →
  Explorer.end_time (Explorer.stats w) = Some ended →
  timestamp_us ended ≠ timestamp_us started →
  Explorer.display_summary w =
    (Returns tt,
     logged w
       (Explorer.ActPrint
          <$> summary_lines (Explorer.stats w) started ended)).
Proof.
  destruct w as [buffer [total by_type by_partition st en] ck tr].
  cbn [Explorer.stats Explorer.total_events Explorer.start_time
       Explorer.end_time].
  intros Htotal -> -> Htimes.
  cbv [Explorer.display_summary mbind prog_bind mret prog_ret modify
       get_store lift_outcome Explorer.print Explorer.log
       Explorer.get_stats Explorer.sub_times Explorer.events_buffer
       Explorer.stats Explorer.checkpoints Explorer.trace
       Explorer.total_events Explorer.events_by_type
       Explorer.events_by_partition Explorer.start_time Explorer.end_time].
  destruct (decide (total > 0)) as [_|?]; [|done].
  unfold py_truediv_float. rewrite seconds_not_zero by (cbn; lia).
  rewrite (for_each_prints _ _ (type_line total)); last first.
  { intros [k c] w'. rewrite truediv_nonzero by lia. reflexivity. }
  cbv beta iota zeta.
  rewrite (for_each_prints _ _ (partition_line total)); last first.
  { intros [k c] w'. rewrite truediv_nonzero by lia. reflexivity. }
  unfold logged, summary_lines.
  cbn [Explorer.events_buffer Explorer.stats Explorer.checkpoints
       Explorer.trace Explorer.total_events Explorer.events_by_type
       Explorer.events_by_partition].
  rewrite !fmap_app. cbn [fmap list_fmap].
  rewrite <- !app_assoc. reflexivity.
Qed.

Lemma summary_log w started ended :
  Explorer.total_events (Explorer.stats w) > 0 →
  Explorer.start_time (Explorer.stats w) = Some started →
  Explorer.end_time (Explorer.stats w) = Some ended →
  timestamp_us ended ≠ timestamp_us started →
  new_actions Explorer.display_summary w
    = Explorer.ActPrint <$> summary_lines (Explorer.stats w) started ended.
Proof.
  intros. unfold new_actions, exec.
  rewrite (display_summary_run w started ended) by done.
  apply drop_app_length.
Qed.

(** X1. When at least one event was counted and the two times are set
    and differ, [display_summary] returns without raising and prints, in
    this order: the period, the duration, the total, the rate (the total
    divided by the seconds elapsed), one line for each entry of the
    breakdown by type with the percentage [count / total * 100], and one
    line for each entry of the breakdown by partition, these in the order
    of [sorted]. *)
Theorem summary_goes_through w started ended :
  Explorer.total_events (Explorer.stats w) > 0 →
  Explorer.start_time (Explorer.stats w) = Some started →
  Explorer.end_time (Explorer.stats w) = Some ended →
  timestamp_us ended ≠ timestamp_us started →
  result Explorer.display_summary w = Returns tt ∧
  new_actions Explorer.display_summary w
    = Explorer.ActPrint <$> summary_lines (Explorer.stats w) started ended.
Proof.
  intros Htotal Hstart Hend Htimes. split; [|by apply summary_log].
  unfold result. by rewrite (display_summary_run w started ended).
Qed.

(** X1 on the session of two events that lasts thirty seconds. *)
Lemma summary_goes_through_witness :
  Explorer.total_events
    (Explorer.stats
       (exec (Explorer.collect_events 30
                (stopped_session 2 (Some CancelledError))) Explorer.init))
    > 0 ∧
  result Explorer.display_summary
    (exec (Explorer.collect_events 30
             (stopped_session 2 (Some CancelledError))) Explorer.init)
    = Returns tt.
Proof.
  split; [vm_compute; reflexivity|].
  apply (summary_goes_through _ opening closing);
    [vm_compute; reflexivity | vm_compute; reflexivity
    | vm_compute; reflexivity | vm_compute; lia].
Defined.

(** X2. [display_summary] needs both times: when [start_time] or
    [end_time] is still [None], as on an explorer that has not finished a
    collection, it raises [TypeError] after the title and prints nothing
    of the statistics. *)
Theorem summary_needs_both_times w :
  Explorer.start_time (Explorer.stats w) = None ∨
  Explorer.end_time (Explorer.stats w) = None →
  result Explorer.display_summary w = Raises TypeError ∧
  new_actions Explorer.display_summary w
    = [Explorer.ActPrint (Explorer.LBanner "RESUMO DOS EVENTOS COLETADOS")].
Proof.
  destruct w as [buffer [total by_type by_partition st en] ck tr].
  cbn [Explorer.stats Explorer.start_time Explorer.end_time].
  unfold result, new_actions, exec.
  intros [-> | ->]; [destruct en|destruct st];
    cbv [Explorer.display_summary mbind prog_bind mret prog_ret modify
         get_store lift_outcome Explorer.print Explorer.log
         Explorer.get_stats Explorer.sub_times Explorer.events_buffer
         Explorer.stats Explorer.checkpoints Explorer.trace
         Explorer.start_time Explorer.end_time fst snd];
    (split; [reflexivity | apply drop_app_length]).
Qed.

(** X2 on a fresh explorer. *)
Lemma summary_needs_both_times_witness :
  Explorer.start_time (Explorer.stats Explorer.init) = None ∧
  result Explorer.display_summary Explorer.init = Raises TypeError.
Proof.
  split; [reflexivity|].
  apply (summary_needs_both_times Explorer.init). left. reflexivity.
Defined.

(** X3. When events were counted and [end_time] equals [start_time], the
    rate divides by zero seconds: [display_summary] raises
    [ZeroDivisionError] after the period, the duration and the total, and
    prints no breakdown. *)
Theorem summary_of_instant_collection w started ended :
  Explorer.total_events (Explorer.stats w) > 0 →
  Explorer.start_time (Explorer.stats w) = Some started →
  Explorer.end_time (Explorer.stats w) = Some ended →
  timestamp_us ended = timestamp_us started →
  result Explorer.display_summary w = Raises ZeroDivisionError ∧
  new_actions Explorer.display_summary w
    = Explorer.ActPrint
        <$> [ Explorer.LBanner "RESUMO DOS EVENTOS COLETADOS";
              Explorer.LPeriod started ended;
              Explorer.LDuration (Timedelta 0);
              Explorer.LTotal (Explorer.total_events (Explorer.stats w)) ].
Proof.
  destruct w as [buffer [total by_type by_partition st en] ck tr].
  cbn [Explorer.stats Explorer.total_events Explorer.start_time
       Explorer.end_time].
  intros Htotal -> -> Htimes.
  unfold result, new_actions, exec.
  cbv [Explorer.display_summary mbind prog_bind mret prog_ret modify
       get_store lift_outcome Explorer.print Explorer.log
       Explorer.get_stats Explorer.sub_times Explorer.events_buffer
       Explorer.stats Explorer.checkpoints Explorer.trace
       Explorer.total_events Explorer.start_time Explorer.end_time
       datetime_sub].
  rewrite Htimes, Z.sub_diag.
  destruct (decide (total > 0)) as [_|?]; [|done].
  cbn [py_truediv_float total_seconds delta_us Qeq_bool Qnum Qden Z.mul
       Z.eqb fst snd].
  split; [reflexivity|].
  cbn [fmap list_fmap]. rewrite <- !app_assoc. apply drop_app_length.
Qed.

(** X3 on a session of one event whose two clock readings agree. *)
Lemma summary_of_instant_collection_witness :
  Explorer.total_events
    (Explorer.stats
       (exec (Explorer.collect_events 30 instant_session) Explorer.init))
    > 0 ∧
  result Explorer.display_summary
    (exec (Explorer.collect_events 30 instant_session) Explorer.init)
    = Raises ZeroDivisionError.
Proof.
  split; [vm_compute; reflexivity|].
  apply (summary_of_instant_collection _ opening opening);
    vm_compute; reflexivity.
Defined.

(** ** The percentages of the summary *)





Lemma partitions_shown_of_lines total (l : list (string * Z)) :
  partitions_shown (Explorer.ActPrint <$> (partition_line total <$> l))
    = l.*1.
Proof.
  induction l as [|kv l IH]; [done|].
  cbn [fmap list_fmap]. unfold partitions_shown. cbn [omap list_omap].
  f_equal. exact IH.
Qed.

Lemma partitions_shown_of_types total (l : list (string * Z)) :
  partitions_shown (Explorer.ActPrint <$> (type_line total <$> l)) = [].
Proof.
  induction l as [|kv l IH]; [done|].
  cbn [fmap list_fmap]. unfold partitions_shown. cbn [omap list_omap].
  exact IH.
Qed.



Lemma summary_partitions_shown st started ended :
  partitions_shown (Explorer.ActPrint <$> summary_lines st started ended)
    = (Explorer.sorted_items (Explorer.events_by_partition st)).*1.
Proof.
  unfold summary_lines. rewrite !fmap_app. unfold partitions_shown.
  rewrite !omap_app. fold partitions_shown.
  rewrite partitions_shown_of_lines, partitions_shown_of_types.
  reflexivity.
Qed.








(** ** The order of the partitions in the summary *)

Lemma item_le_total : Total Explorer.item_le.
Proof. intros a b. apply String.leb_total. Qed.

Lemma sorted_items_sorted (d : gmap string Z) :
  Sorted (λ p q, String.leb p q = true) (Explorer.sorted_items d).*1.
Proof.
  apply (Sorted_fmap fst Explorer.item_le); [by intros [] []|].
  apply (@Sorted_merge_sort _ _ _ item_le_total).
Qed.

Lemma sorted_items_keys (d : gmap string Z) :
  (Explorer.sorted_items d).*1 ≡ₚ (map_to_list d).*1.
Proof. unfold Explorer.sorted_items. by rewrite merge_sort_Permutation. Qed.

(** X5. In a summary that goes through, the lines of the breakdown by
    partition come in ascending order of the partition ids compared as
    strings (so ["10"] comes before ["2"]), and every partition of the
    breakdown has exactly one line. *)
Theorem summary_partitions_in_order w started ended :
  Explorer.total_events (Explorer.stats w) > 0 →
  Explorer.start_time (Explorer.stats w) = Some started →
  Explorer.end_time (Explorer.stats w) = Some ended →
  timestamp_us ended ≠ timestamp_us started →
  let shown := partitions_shown (new_actions Explorer.display_summary w) in
  Sorted (λ p q, String.leb p q = true) shown ∧
  NoDup shown ∧
  ∀ p, p ∈ shown ↔
       is_Some (Explorer.events_by_partition (Explorer.stats w) !! p).
Proof.
  intros Htotal Hstart Hend Htimes shown. unfold shown.
  rewrite (summary_log w started ended), summary_partitions_shown by done.
  split; [apply sorted_items_sorted|].
  split.
  - rewrite sorted_items_keys. apply NoDup_fst_map_to_list.
  - intros p. rewrite sorted_items_keys.
    rewrite list_elem_of_fmap. split.
    + intros [[k c] [-> Hin]]. apply elem_of_map_to_list in Hin. by eexists.
    + intros [c Hc]. exists (p, c). split; [done|].
      by apply elem_of_map_to_list.
Qed.

(** X5 on the session of two events that lasts thirty seconds. *)
Lemma summary_partitions_in_order_witness :
  Explorer.total_events
    (Explorer.stats
       (exec (Explorer.collect_events 30
                (stopped_session 2 (Some CancelledError))) Explorer.init))
    > 0 ∧
  NoDup
    (partitions_shown
       (new_actions Explorer.display_summary
          (exec (Explorer.collect_events 30
                   (stopped_session 2 (Some CancelledError)))
             Explorer.init))).
Proof.
  split; [vm_compute; reflexivity|].
  apply (summary_partitions_in_order _ opening closing);
    [vm_compute; reflexivity | vm_compute; reflexivity
    | vm_compute; reflexivity | vm_compute; lia].
Defined.

(** Partition ["10"] is listed before partition ["2"]. *)
Example ten_before_two :
  (Explorer.sorted_items {[ "2" := 1; "10" := 1 ]}).*1 = ["10"; "2"].
Proof. vm_compute. reflexivity. Qed.

(** ** What the reports leave alone *)

Lemma same_data_log w0 a : preserves (same_data w0) (Explorer.log a).
Proof. by intros w Hw. Qed.

Lemma same_data_print w0 l : preserves (same_data w0) (Explorer.print l).
Proof. apply same_data_log. Qed.

#[local] Hint Resolve same_data_log same_data_print : keeps.

Lemma same_data_display_summary w0 :
  preserves (same_data w0) Explorer.display_summary.
Proof. unfold Explorer.display_summary, Explorer.get_stats. keeps. Qed.

Lemma same_data_display_recent_events w0 limit :
  preserves (same_data w0) (Explorer.display_recent_events limit).
Proof.
  unfold Explorer.display_recent_events, Explorer.get_buffer. keeps.
Qed.

Lemma same_data_export_to_json w0 isoformat str_datetime filename now :
  preserves (same_data w0)
    (Explorer.export_to_json isoformat str_datetime filename now).
Proof. unfold Explorer.export_to_json. keeps. Qed.

Lemma same_data_refl w : same_data w w.
Proof. by repeat split. Qed.

(** X6. The three reports only read what was collected: whether they
    return or raise, [display_summary], [display_recent_events] and
    [export_to_json] leave the event buffer, the statistics and the
    checkpoints exactly as they found them. *)
Theorem reports_keep_the_data isoformat str_datetime limit filename now w :
  same_data w (exec Explorer.display_summary w) ∧
  same_data w (exec (Explorer.display_recent_events limit) w) ∧
  same_data w
    (exec (Explorer.export_to_json isoformat str_datetime filename now) w).
Proof.
  split; [|split].
  - apply same_data_display_summary, same_data_refl.
  - apply same_data_display_recent_events, same_data_refl.
  - apply same_data_export_to_json, same_data_refl.
Qed.

(** ** The listing of the most recent events *)

(** X7. For a limit of at least one, the listing shows the
    [min limit (length buffer)] most recently appended events, the most
    recent first: it is the buffer read backwards and cut after [limit]
    events, the whole buffer when the limit exceeds its length. *)
Theorem recent_events_for_positive_limit limit
    (buffer : list Explorer.EventEntry) :
  0 < limit →
  Explorer.shown_events limit buffer
    = take (Z.to_nat limit) (reverse buffer) ∧
  Z.of_nat (length (Explorer.shown_events limit buffer))
    = Z.min limit (Z.of_nat (length buffer)) ∧
  (Z.of_nat (length buffer) ≤ limit →
   Explorer.shown_events limit buffer = reverse buffer).
Proof.
  intros Hlimit. rewrite shown_events_positive by done.
  split; [done|]. split.
  - rewrite length_take, length_reverse. lia.
  - intros Hshort. apply take_ge. rewrite length_reverse. lia.
Qed.

(** X7 at the limit two on a buffer of three entries. *)
Lemma recent_events_for_positive_limit_witness :
  0 < 2 ∧
  Z.of_nat
    (length
       (Explorer.shown_events 2
          (Explorer.events_buffer
             (handle_all (take 3 five_events) Explorer.init))))
    = Z.min 2 (Z.of_nat
                 (length
                    (Explorer.events_buffer
                       (handle_all (take 3 five_events) Explorer.init)))).
Proof.
  split; [lia|].
  apply (recent_events_for_positive_limit 2). lia.
Defined.

(** X8. For a negative limit [buffer[-limit:]] starts at the index
    [-limit] counted from the front: the listing leaves out the [-limit]
    oldest events and shows all the others, the most recent first. *)
Theorem recent_events_for_negative_limit limit
    (buffer : list Explorer.EventEntry) :
  limit < 0 →
  Explorer.shown_events limit buffer
    = reverse (drop (Z.to_nat (- limit)) buffer).
Proof.
  intros Hlimit. unfold Explorer.shown_events, Explorer.recent_events,
    Explorer.py_slice_from.
  destruct (decide (Z.of_nat (length buffer) > limit)) as [_|?]; [|lia].
  destruct (decide (- limit < 0)) as [?|_]; [lia|].
  f_equal.
  destruct (decide (- limit ≤ Z.of_nat (length buffer))) as [Hle|Hgt].
  - by rewrite Z.min_l by lia.
  - rewrite Z.min_r by lia. rewrite Nat2Z.id.
    rewrite !drop_ge; [done | lia | lia].
Qed.

(** X8 at the limit minus one on a buffer of three entries. *)
Lemma recent_events_for_negative_limit_witness :
  -1 < 0 ∧
  length
    (Explorer.shown_events (-1)
       (Explorer.events_buffer
          (handle_all (take 3 five_events) Explorer.init)))
    = 2%nat.
Proof.
  split; [lia|].
  rewrite (recent_events_for_negative_limit (-1)) by lia.
  vm_compute. reflexivity.
Defined.

Lemma display_recent_events_run limit w :
  Explorer.display_recent_events limit w =
    (Returns tt,
     logged w
       (Explorer.ActPrint (Explorer.LRecentHeader limit)
          :: (Explorer.ActPrint
                <$> imap (λ i entry,
                            Explorer.LRecentEvent (Z.of_nat i + 1) entry)
                      (Explorer.shown_events limit
                         (Explorer.events_buffer w))))).
Proof.
  unfold Explorer.display_recent_events, Explorer.get_buffer.
  unfold mbind, prog_bind at 1. rewrite print_run.
  cbv [mbind prog_bind get_store mret prog_ret].
  rewrite (for_each_prints _ _
             (λ ie, Explorer.LRecentEvent ie.1 ie.2)); [|by intros []].
  rewrite logged_logged. cbn [logged Explorer.events_buffer].
  do 3 f_equal. unfold Explorer.enumerate1.
  rewrite fmap_imap. reflexivity.
Qed.

(** X9. [display_recent_events] never raises, whatever the limit and the
    buffer: it prints the heading and then one entry for each event shown,
    numbered from one in the order shown. *)
Theorem recent_events_listing limit w :
  result (Explorer.display_recent_events limit) w = Returns tt ∧
  new_actions (Explorer.display_recent_events limit) w
    = Explorer.ActPrint (Explorer.LRecentHeader limit)
        :: (Explorer.ActPrint
              <$> imap (λ i entry,
                          Explorer.LRecentEvent (Z.of_nat i + 1) entry)
                    (Explorer.shown_events limit
                       (Explorer.events_buffer w))).
Proof.
  unfold result, new_actions, exec. rewrite display_recent_events_run.
  split; [done|]. apply drop_app_length.
Qed.

(** ** Collection sessions *)

Lemma run_pair {S A} (p : Prog S A) (s : S) : p s = (result p s, exec p s).
Proof. unfold result, exec. by destruct (p s). Qed.

Lemma clean_quiet ds : Forall clean ds → Forall quiet ds.
Proof.
  intros H. eapply Forall_impl; [exact H|].
  intros d [_ Hd]. unfold quiet. by rewrite Hd.
Qed.

Lemma handle_all_app ds1 ds2 w :
  handle_all (ds1 ++ ds2) w = handle_all ds2 (handle_all ds1 w).
Proof. apply foldl_app. Qed.

Lemma handle_all_cons d ds w :
  handle_all (d :: ds) w
    = handle_all ds (exec (Explorer.on_event d.1 d.2) w).
Proof. reflexivity. Qed.

(** On quiet deliveries the receive loop does what running the handler
    on each of them does. *)
Lemma dispatch_run ds w :
  Forall quiet ds →
  Sdk.dispatch Explorer.on_event None ds w = (Returns tt, handle_all ds w).
Proof.
  intros Hds. revert w.
  induction Hds as [|[pc event] ds Hd _ IH]; intros w; [done|].
  rewrite handle_all_cons. cbn [Sdk.dispatch fst snd].
  cbv [mbind prog_bind try_except]. unfold exec. rewrite on_event_run.
  unfold quiet, checkpoint_outcome in *. cbn [fst] in Hd.
  destruct (parsed event); [destruct (Sdk.checkpoint_raises pc)|];
    cbn [is_Exception]; rewrite ?Hd; apply IH.
Qed.

Lemma handle_all_buffer ds w :
  Explorer.events_buffer (handle_all ds w)
    = Explorer.events_buffer w ++ entries_of ds.
Proof.
  revert w. induction ds as [|[pc event] ds IH]; intros w.
  - cbn [handle_all foldl entries_of omap list_omap]. by rewrite app_nil_r.
  - rewrite handle_all_cons, IH. cbn [fst snd]. rewrite on_event_world. unfold entries_of. cbn [omap list_omap snd fst].
    destruct (parsed event) as [body|]; cbn [fmap option_fmap option_map];
      [|done].
    cbn [accounted Explorer.events_buffer]. by rewrite <- app_assoc.
Qed.

Lemma handle_all_total ds w :
  Explorer.total_events (Explorer.stats (handle_all ds w))
    = Explorer.total_events (Explorer.stats w)
      + Z.of_nat (length (entries_of ds)).
Proof.
  revert w. induction ds as [|[pc event] ds IH]; intros w.
  - cbn [handle_all foldl entries_of omap list_omap length]. lia.
  - rewrite handle_all_cons, IH. cbn [fst snd]. rewrite on_event_world. unfold entries_of. cbn [omap list_omap snd fst].
    destruct (parsed event) as [body|]; cbn [fmap option_fmap option_map];
      [|done].
    cbn [accounted counted Explorer.stats Explorer.total_events length]. lia.
Qed.

Lemma handle_all_times ds w :
  Explorer.start_time (Explorer.stats (handle_all ds w))
    = Explorer.start_time (Explorer.stats w) ∧
  Explorer.end_time (Explorer.stats (handle_all ds w))
    = Explorer.end_time (Explorer.stats w).
Proof.
  revert w. induction ds as [|[pc event] ds IH]; intros w; [done|].
  rewrite handle_all_cons. cbn [fst snd].
  destruct (IH (exec (Explorer.on_event pc event) w)) as [-> ->].
  rewrite on_event_world. by destruct (parsed event).
Qed.

Lemma entries_of_clean ds :
  Forall clean ds → length (entries_of ds) = length ds.
Proof.
  induction 1 as [|[pc event] ds [[body Hbody] _] _ IH]; [done|].
  unfold entries_of. cbn [omap list_omap snd fst]. cbn [snd] in Hbody.
  rewrite Hbody. cbn [fmap option_fmap option_map length]. f_equal.
  exact IH.
Qed.

Lemma set_start_time_run t w :
  Explorer.set_start_time t w
    = (Returns tt, exec (Explorer.set_start_time t) w).
Proof. reflexivity. Qed.

Lemma set_end_time_run t w :
  Explorer.set_end_time t w = (Returns tt, exec (Explorer.set_end_time t) w).
Proof. reflexivity. Qed.

(** What a session does to the store, and how it ends. *)
Lemma collect_events_run duration_seconds s w :
  Forall quiet (handed_over s) →
  Explorer.collect_events duration_seconds s w =
    let w1 :=
      handle_all (handed_over s)
        (logged (exec (Explorer.set_start_time (Sdk.opened_at s)) w)
           [Explorer.ActPrint (Explorer.LCollecting duration_seconds)]) in
    match Sdk.ending s with
    | Some e =>
        if is_CancelledError e
        then (Returns tt, exec (Explorer.set_end_time (Sdk.closed_at s)) w1)
        else (Raises e, w1)
    | None => (Returns tt, exec (Explorer.set_end_time (Sdk.closed_at s)) w1)
    end.
Proof.
  intros Hquiet.
  cbv [Explorer.collect_events Sdk.receive mbind prog_bind try_except].
  rewrite set_start_time_run, print_run.
  change (Sdk.selected "-1" s) with (Sdk.backlog s ++ Sdk.arriving s).
  fold (handed_over s). rewrite (dispatch_run _ _ Hquiet).
  destruct (Sdk.ending s) as [e|]; [|reflexivity].
  cbn [raise]. destruct (is_CancelledError e); reflexivity.
Qed.

Lemma collect_events_ends_well duration_seconds s w :
  Forall quiet (handed_over s) →
  Sdk.ending s = None ∨ Sdk.ending s = Some CancelledError →
  Explorer.collect_events duration_seconds s w =
    (Returns tt,
     exec (Explorer.set_end_time (Sdk.closed_at s))
       (handle_all (handed_over s)
          (logged (exec (Explorer.set_start_time (Sdk.opened_at s)) w)
             [Explorer.ActPrint (Explorer.LCollecting duration_seconds)]))).
Proof.
  intros Hquiet Hend. rewrite collect_events_run by done. cbv zeta.
  by destruct Hend as [-> | ->].
Qed.


(** X10. A collection session in which no handler run raises and that
    ends by the receive call returning or by [asyncio.CancelledError]:
    [collect_events] returns normally; every event handed over is appended
    to the buffer, in order, behind what the explorer already held; the
    total grows by their number; and the two times are those of this
    session. *)
Theorem session_adds_to_the_collection duration_seconds s w :
  Forall clean (handed_over s) →
  Sdk.ending s = None ∨ Sdk.ending s = Some CancelledError →
  let w' := exec (Explorer.collect_events duration_seconds s) w in
  result (Explorer.collect_events duration_seconds s) w = Returns tt ∧
  Explorer.events_buffer w'
    = Explorer.events_buffer w ++ entries_of (handed_over s) ∧
  length (entries_of (handed_over s)) = length (handed_over s) ∧
  Explorer.total_events (Explorer.stats w')
    = Explorer.total_events (Explorer.stats w)
      + Z.of_nat (length (handed_over s)) ∧
  Explorer.start_time (Explorer.stats w') = Some (Sdk.opened_at s) ∧
  Explorer.end_time (Explorer.stats w') = Some (Sdk.closed_at s).
Proof.
  intros Hclean Hend w'. subst w'. unfold result, exec.
  rewrite (collect_events_ends_well _ _ _ (clean_quiet _ Hclean) Hend).
  set (w0 := logged _ _).
  cbn [fst snd]. split; [done|].
  pose proof (handle_all_buffer (handed_over s) w0) as Hbuffer.
  pose proof (handle_all_total (handed_over s) w0) as Htotal.
  destruct (handle_all_times (handed_over s) w0) as [Hstart _].
  rewrite (entries_of_clean _ Hclean) in Htotal.
  split; [exact Hbuffer|]. split; [by apply entries_of_clean|].
  split; [exact Htotal|]. split; [exact Hstart|]. reflexivity.
Qed.

Lemma session_adds_to_the_collection_witness :
  Forall clean (handed_over (stopped_session 2 (Some CancelledError))) ∧
  Explorer.total_events
    (Explorer.stats
       (exec (Explorer.collect_events 30
                (stopped_session 2 (Some CancelledError)))
          (handle_all (take 3 five_events) Explorer.init)))
    = 3 + Z.of_nat (length
                      (handed_over
                         (stopped_session 2 (Some CancelledError)))).
Proof.
  assert (Forall clean
            (handed_over (stopped_session 2 (Some CancelledError)))) as H.
  { repeat constructor; vm_compute; eauto. }
  split; [exact H|].
  apply (session_adds_to_the_collection 30
           (stopped_session 2 (Some CancelledError))
           (handle_all (take 3 five_events) Explorer.init) H).
  right. reflexivity.
Defined.



(** ** The script's [main] *)



Lemma printed_prints lines : printed (Explorer.ActPrint <$> lines) = lines.
Proof.
  induction lines as [|line lines IH]; [done|].
  cbn [fmap list_fmap printed omap list_omap]. f_equal. exact IH.
Qed.








Lemma main_session_start_output s :
  printed (Explorer.trace (main_session_start s))
    = [Explorer.LBanner "Azure Event Hub - Data Explorer Demo";
       Explorer.LCollecting 30] ∧
  ∀ f, written f (Explorer.trace (main_session_start s)) = [].
Proof. done. Qed.








(** ** Checkpoints *)

(** X15. When [update_checkpoint] raises, the handler of the explorer has
    already accounted for the event: the exception leaves the handler, the
    entry is in the buffer and in the total, and the checkpoint of the
    partition is as before (the event is counted, not acknowledged). *)
Theorem checkpoint_failure_keeps_the_event pc event body e w :
  parsed event = Some body →
  Sdk.checkpoint_raises pc = Some e →
  let w' := exec (Explorer.on_event pc event) w in
  result (Explorer.on_event pc event) w = Raises e ∧
  Explorer.events_buffer w'
    = Explorer.events_buffer w ++ [entry_of pc event body] ∧
  Explorer.total_events (Explorer.stats w')
    = Explorer.total_events (Explorer.stats w) + 1 ∧
  Explorer.checkpoints w' = Explorer.checkpoints w.
Proof.
  intros Hbody Hfail w'. subst w'. unfold result, exec.
  rewrite on_event_run, Hbody. unfold checkpoint_outcome. rewrite Hfail.
  cbn [fst snd accounted Explorer.events_buffer Explorer.stats
       Explorer.checkpoints counted Explorer.total_events].
  rewrite Hfail. done.
Qed.

Lemma checkpoint_failure_keeps_the_event_witness :
  let pc := {| Sdk.partition_id := "0";
               Sdk.checkpoint_raises := Some EventHubError |} in
  parsed (typed_event 1 "login")
    = Some (Explorer.BodyJson (JObj [("event_type", JStr "login")])) ∧
  Sdk.checkpoint_raises pc = Some EventHubError ∧
  result (Explorer.on_event pc (typed_event 1 "login")) Explorer.init
    = Raises EventHubError ∧
  Explorer.total_events
    (Explorer.stats
       (exec (Explorer.on_event pc (typed_event 1 "login")) Explorer.init))
    = 1.
Proof.
  intros pc.
  assert (parsed (typed_event 1 "login")
          = Some (Explorer.BodyJson (JObj [("event_type", JStr "login")])))
    as Hbody by reflexivity.
  split; [exact Hbody|]. split; [reflexivity|].
  destruct (checkpoint_failure_keeps_the_event pc (typed_event 1 "login")
              _ EventHubError Explorer.init Hbody eq_refl)
    as (Hr & _ & Ht & _).
  split; [exact Hr|exact Ht].
Defined.

Lemma last_on_cons p d ds :
  last_on p (d :: ds) =
    match last_on p ds with
    | Some d' => Some d'
    | None => if decide (Sdk.partition_id d.1 = p) then Some d else None
    end.
Proof.
  unfold last_on. rewrite filter_cons.
  destruct (decide (Sdk.partition_id d.1 = p)); [|by destruct (last _)].
  apply last_cons.
Qed.

(** X16. After the explorer's handler has run on a sequence of events
    without raising, the checkpoint the transport holds for a partition is
    the offset and sequence number of the last event of the sequence on
    that partition, whatever the interleaving of the partitions; a
    partition without an event keeps the checkpoint it had. *)
Theorem checkpoint_is_of_the_last_event ds w p :
  Forall clean ds →
  Explorer.checkpoints (handle_all ds w) !! p =
    match last_on p ds with
    | Some d => Some (checkpoint_of d.2)
    | None => Explorer.checkpoints w !! p
    end.
Proof.
  intros Hds. revert w.
  induction Hds as [|[pc event] ds [[body Hbody] Hck] _ IH]; intros w;
    [done|].
  cbn [fst snd] in Hbody, Hck.
  rewrite handle_all_cons, IH, last_on_cons. cbn [fst snd].
  destruct (last_on p ds) as [d|]; [done|].
  rewrite on_event_world, Hbody. cbn [accounted Explorer.checkpoints].
  rewrite Hck.
  destruct (decide (Sdk.partition_id pc = p)) as [<-|Hne].
  - by rewrite lookup_insert_eq.
  - by rewrite lookup_insert_ne.
Qed.

Lemma checkpoint_is_of_the_last_event_witness :
  Forall clean five_events ∧
  Explorer.checkpoints (handle_all five_events Explorer.init) !! "1"
    = (λ d, checkpoint_of d.2) <$> last_on "1" five_events.
Proof.
  assert (Forall clean five_events) as H.
  { repeat constructor; vm_compute; eauto. }
  split; [exact H|].
  rewrite (checkpoint_is_of_the_last_event five_events Explorer.init "1" H).
  vm_compute. reflexivity.
Defined.

(** * [receive_events.py] *)



(** The receive loop of the receiver ends by returning or with a
    [BaseException] that [update_checkpoint] raised. *)
Lemma receiver_dispatch_outcome ds w :
  result (Sdk.dispatch Receiver.on_event (Some Receiver.on_error) ds) w
    = Returns tt ∨
  ∃ e,
    result (Sdk.dispatch Receiver.on_event (Some Receiver.on_error) ds) w
      = Raises e ∧
    is_Exception e = false.
Proof.
  revert w. induction ds as [|[pc event] ds IH]; intros w; [by left|].
  unfold result in *. cbn [Sdk.dispatch].
  cbv [mbind prog_bind try_except]. rewrite receiver_on_event_run.
  cbv zeta. unfold checkpoint_outcome.
  destruct (body_line event) as [line|]; cbn [is_Exception];
    [|apply IH].
  destruct (Sdk.checkpoint_raises pc) as [e|]; [|apply IH].
  destruct (is_Exception e) eqn:He; [apply IH|].
  right. by exists e.
Qed.

(** X17. [receive_events] reports every error and goes on or stops:
    whatever the events, whatever [update_checkpoint] raises and however
    the session ends, it returns normally, unless a [BaseException] other
    than [KeyboardInterrupt] (that is, [asyncio.CancelledError]) ended the
    receive call; no [Exception] ever gets out of it. *)
Theorem receive_events_lets_no_error_out configured s w :
  result (Receiver.receive_events configured s) w = Returns tt ∨
  ∃ e,
    result (Receiver.receive_events configured s) w = Raises e ∧
    is_Exception e = false ∧ is_KeyboardInterrupt e = false.
Proof.
  unfold Receiver.receive_events. destruct configured; cbn [negb];
    [|by left].
  unfold result. cbv [mbind prog_bind try_except2 Sdk.receive].
  change (Receiver.print Receiver.LStarting w)
    with (Returns tt, exec (Receiver.print Receiver.LStarting) w).
  cbv iota beta. set (w0 := exec _ w).
  destruct (receiver_dispatch_outcome
              (take (Sdk.handled s) (Sdk.selected "-1" s)) w0)
    as [Hr | (e & Hr & He)];
    unfold result in Hr;
    destruct (Sdk.dispatch _ _ _ w0) as [o w1]; cbn [fst] in Hr; subst o.
  - destruct (Sdk.ending s) as [e|]; [|by left]. cbn [raise].
    destruct (is_KeyboardInterrupt e) eqn:Hk; [by left|].
    destruct (is_Exception e) eqn:He; [by left|].
    right. by exists e.
  - destruct (is_KeyboardInterrupt e) eqn:Hk; [by left|].
    rewrite He. right. by exists e.
Qed.






(** * [demo.py] *)

Lemma demo_handler_run_received pc event w :
  Demo.events_received (exec (Demo.on_event pc event) w)
    = Demo.events_received w ++ demo_received [(pc, event)].
Proof.
  unfold exec, demo_received. rewrite demo_on_event_run. cbv zeta.
  cbn [omap list_omap fst snd].
  destruct (Sdk.body_as_json event) as [j|];
    cbn [fmap option_fmap option_map snd Demo.events_received];
    [|by rewrite app_nil_r].
  destruct (Demo.dict_get _ _ j); [|done].
  destruct (Sdk.checkpoint_raises pc) as [e|]; [|done].
  by destruct (is_Exception e).
Qed.

(** X19. The handler of [receive_demo_events] absorbs every [Exception]:
    it returns normally unless [update_checkpoint] raises a
    [BaseException]; it records the event exactly when the body is JSON,
    and it updates the checkpoint only when that JSON value is an object
    (only then can the event type be read) and the update succeeds, so an
    event with a JSON body of another kind is recorded but never
    acknowledged. *)
Theorem demo_handler_absorbs_errors pc event w :
  let w' := exec (Demo.on_event pc event) w in
  (result (Demo.on_event pc event) w = Returns tt ∨
   ∃ e, result (Demo.on_event pc event) w = Raises e ∧
        Sdk.checkpoint_raises pc = Some e ∧ is_Exception e = false) ∧
  Demo.events_received w'
    = Demo.events_received w ++ demo_received [(pc, event)] ∧
  Demo.checkpoints w' =
    match Sdk.body_as_json event, Sdk.checkpoint_raises pc with
    | Some (JObj _), None =>
        <[Sdk.partition_id pc := checkpoint_of event]> (Demo.checkpoints w)
    | _, _ => Demo.checkpoints w
    end.
Proof.
  intros w'. subst w'. unfold result, exec, demo_received.
  rewrite demo_on_event_run. cbv zeta. cbn [omap list_omap fst snd].
  destruct (Sdk.body_as_json event) as [j|];
    cbn [fmap option_fmap option_map fst snd Demo.events_received
         Demo.checkpoints].
  2: { split; [by left|]. split; [by rewrite app_nil_r|done]. }
  destruct j; cbn [Demo.dict_get fst snd Demo.events_received
                   Demo.checkpoints];
    try (split; [by left|]; split; [done|]; by destruct (Sdk.checkpoint_raises pc)).
  destruct (Sdk.checkpoint_raises pc) as [e|];
    cbn [fst snd Demo.events_received Demo.checkpoints];
    [|split; [by left|done]].
  destruct (is_Exception e) eqn:He;
    cbn [fst snd Demo.events_received Demo.checkpoints].
  - split; [by left|done].
  - split; [|done]. right. by exists e.
Qed.

Lemma demo_received_cons pc event ds :
  demo_received ((pc, event) :: ds)
    = demo_received [(pc, event)] ++ demo_received ds.
Proof.
  unfold demo_received. cbn [omap list_omap fst snd].
  by destruct (Sdk.body_as_json event).
Qed.

(** On quiet deliveries the demo's handler always returns, so the receive
    loop hands it every delivery. *)
Lemma demo_dispatch_run ds w :
  Forall quiet ds →
  ∃ w',
    Sdk.dispatch Demo.on_event None ds w = (Returns tt, w') ∧
    Demo.events_received w' = Demo.events_received w ++ demo_received ds.
Proof.
  intros Hds. revert w.
  induction Hds as [|[pc event] ds Hd _ IH]; intros w.
  { exists w. by rewrite app_nil_r. }
  unfold quiet in Hd. cbn [fst] in Hd.
  pose proof (demo_handler_run_received pc event w) as Hrec.
  cbn [Sdk.dispatch]. cbv [mbind prog_bind try_except].
  assert (result (Demo.on_event pc event) w = Returns tt) as Hres.
  { unfold result. rewrite demo_on_event_run. cbv zeta.
    destruct (Sdk.body_as_json event) as [j|]; [|done].
    destruct (Demo.dict_get _ _ j); [|done].
    destruct (Sdk.checkpoint_raises pc) as [e|]; [|done]. by rewrite Hd. }
  rewrite (run_pair (Demo.on_event pc event) w), Hres.
  destruct (IH (exec (Demo.on_event pc event) w)) as (w' & -> & Hw').
  exists w'. split; [done|].
  rewrite Hw', Hrec, <- app_assoc. f_equal. symmetry.
  apply demo_received_cons.
Qed.

Lemma demo_receive_run timeout_seconds s :
  Forall quiet (handed_over s) →
  ∃ c,
    Demo.receive_demo_events timeout_seconds s Demo.init =
      (match Sdk.ending s with
       | Some e =>
           if is_CancelledError e
           then Returns (demo_received (handed_over s))
           else Raises e
       | None => Returns (demo_received (handed_over s))
       end, c).
Proof.
  intros Hds. unfold Demo.receive_demo_events.
  cbv [mbind prog_bind try_except Sdk.receive].
  change (Sdk.selected "-1" s) with (Sdk.backlog s ++ Sdk.arriving s).
  fold (handed_over s).
  change (Demo.print (Demo.LReceiving timeout_seconds) Demo.init)
    with (Returns tt,
          exec (Demo.print (Demo.LReceiving timeout_seconds)) Demo.init).
  cbv iota beta.
  destruct (demo_dispatch_run (handed_over s)
              (exec (Demo.print (Demo.LReceiving timeout_seconds)) Demo.init)
              Hds) as (w1 & -> & Hw1).
  cbn [exec Demo.print Demo.log modify snd Demo.events_received app] in Hw1.
  destruct (Sdk.ending s) as [e|];
    [cbn [raise]; destruct (is_CancelledError e)|];
    cbv [mret prog_ret get_store fst]; rewrite ?Hw1; by eexists.
Qed.

(** X20. [receive_demo_events], when [update_checkpoint] raises at most
    an [Exception]: if the receive call returns or is ended by
    [asyncio.CancelledError], the function returns one element for each
    event handed over whose body is JSON, in the order of arrival and with
    the event's partition, offset, properties and body; the events with
    another body are left out.  If the receive call ends with any other
    exception, that exception is raised and the caller gets no list. *)
Theorem demo_returns_the_json_events timeout_seconds s :
  Forall quiet (handed_over s) →
  result (Demo.receive_demo_events timeout_seconds s) Demo.init =
    match Sdk.ending s with
    | Some e =>
        if is_CancelledError e
        then Returns (demo_received (handed_over s))
        else Raises e
    | None => Returns (demo_received (handed_over s))
    end.
Proof.
  intros Hds. unfold result.
  by destruct (demo_receive_run timeout_seconds s Hds) as [c ->].
Qed.

Lemma demo_returns_the_json_events_witness :
  Forall quiet (handed_over mixed_session) ∧
  result (Demo.receive_demo_events 10 mixed_session) Demo.init
    = Raises KeyboardInterrupt.
Proof.
  assert (Forall quiet (handed_over mixed_session)) as H.
  { repeat constructor. }
  split; [exact H|].
  rewrite (demo_returns_the_json_events 10 mixed_session H). reflexivity.
Defined.

(** ** The sending side of the demonstration *)

Lemma demo_sends_app l1 l2 :
  demo_sends (l1 ++ l2) = demo_sends l1 ++ demo_sends l2.
Proof. apply omap_app. Qed.

Lemma demo_lines_app l1 l2 :
  demo_lines (l1 ++ l2) = demo_lines l1 ++ demo_lines l2.
Proof. apply omap_app. Qed.

Lemma demo_lines_prints lines :
  demo_lines (DemoScript.ActPrint <$> lines) = lines.
Proof.
  induction lines as [|line lines IH]; [done|].
  cbn [fmap list_fmap demo_lines omap list_omap]. f_equal. exact IH.
Qed.

Lemma script_logged_logged w l1 l2 :
  script_logged (script_logged w l1) l2 = script_logged w (l1 ++ l2).
Proof. unfold script_logged. cbn. by rewrite app_assoc. Qed.

Lemma script_print_run line w :
  DemoScript.print line w
    = (Returns tt, script_logged w [DemoScript.ActPrint line]).
Proof. reflexivity. Qed.

Lemma enumerate1_snd {A} (l : list A) : (Explorer.enumerate1 l).*2 = l.
Proof.
  unfold Explorer.enumerate1. rewrite fmap_imap.
  rewrite (imap_ext _ (const id)); [|done].
  rewrite imap_const. apply list_fmap_id.
Qed.

Lemma send_step_run env i e w :
  DemoScript.send_step env (i, e) w =
    if DemoScript.send_fails env (DemoScript.attempts w)
    then (Raises EventHubError,
          {| DemoScript.attempts := S (DemoScript.attempts w);
             DemoScript.hub := DemoScript.hub w;
             DemoScript.consumer := DemoScript.consumer w;
             DemoScript.trace :=
               DemoScript.trace w ++
                 [DemoScript.ActSend (DemoScript.event_of e)] |})
    else (Returns tt,
          {| DemoScript.attempts := S (DemoScript.attempts w);
             DemoScript.hub := DemoScript.hub w ++ [DemoScript.event_of e];
             DemoScript.consumer := DemoScript.consumer w;
             DemoScript.trace :=
               DemoScript.trace w ++
                 [ DemoScript.ActSend (DemoScript.event_of e);
                   DemoScript.ActPrint
                     (DemoScript.LSentEvent i (DemoScript.event_type e));
                   DemoScript.ActSleep (1 # 2) ] |}).
Proof.
  cbv [mbind prog_bind DemoScript.send_step DemoScript.send_batch get_store
       modify DemoScript.log DemoScript.print DemoScript.sleep raise].
  destruct (DemoScript.send_fails env (DemoScript.attempts w));
    cbn [DemoScript.attempts DemoScript.hub DemoScript.consumer
         DemoScript.trace]; [reflexivity|].
  by rewrite <- !app_assoc.
Qed.

(** The loop of [send_demo_events] ends at the first send that fails. *)
Lemma send_loop_run env (items : list (Z * DemoScript.DemoEvent)) w :
  ∃ w',
    for_each items (DemoScript.send_step env) w
      = (if decide (length (accepted (DemoScript.send_fails env)
                              (DemoScript.attempts w) items.*2)
                    = length items.*2)
         then Returns tt else Raises EventHubError, w') ∧
    DemoScript.hub w'
      = DemoScript.hub w ++
          (DemoScript.event_of
             <$> accepted (DemoScript.send_fails env)
                   (DemoScript.attempts w) items.*2) ∧
    DemoScript.consumer w' = DemoScript.consumer w ∧
    demo_sends (DemoScript.trace w')
      = demo_sends (DemoScript.trace w) ++
          (DemoScript.event_of
             <$> attempted (DemoScript.send_fails env)
                   (DemoScript.attempts w) items.*2).
Proof.
  revert w. induction items as [|[i e] items IH]; intros w.
  { exists w. cbn [for_each accepted attempted fmap list_fmap length].
    rewrite !app_nil_r. by destruct (decide _). }
  cbn [for_each accepted attempted fmap list_fmap snd].
  cbv [mbind prog_bind]. rewrite send_step_run.
  destruct (DemoScript.send_fails env (DemoScript.attempts w)) eqn:Hfail;
    cbv beta iota.
  - eexists. split; [|split; [|split]].
    + cbn [length]. destruct (decide _) as [?|_]; [done|]. reflexivity.
    + cbn [DemoScript.hub fmap list_fmap]. by rewrite app_nil_r.
    + reflexivity.
    + cbn [DemoScript.trace fmap list_fmap]. rewrite demo_sends_app.
      reflexivity.
  - match goal with |- context [for_each _ _ ?w1] =>
      destruct (IH w1) as (w' & Hrun & Hhub & Hcons & Hsends)
    end.
    cbn [DemoScript.attempts DemoScript.hub DemoScript.consumer
         DemoScript.trace] in Hrun, Hhub, Hcons, Hsends.
    exists w'. split; [|split; [|split]].
    + rewrite Hrun. cbn [length].
      destruct (decide _) as [H1|H1]; destruct (decide _) as [H2|H2];
        try reflexivity; lia.
    + rewrite Hhub. cbn [fmap list_fmap]. by rewrite <- app_assoc.
    + exact Hcons.
    + rewrite Hsends, !demo_sends_app. cbn [demo_sends omap list_omap].
      rewrite ?app_nil_r. cbn [fmap list_fmap]. by rewrite <- app_assoc.
Qed.

Lemma send_all_run env events w :
  ∃ w',
    DemoScript.send_all env events w = (Returns tt, w') ∧
    DemoScript.hub w'
      = DemoScript.hub w ++
          (DemoScript.event_of
             <$> accepted (DemoScript.send_fails env)
                   (DemoScript.attempts w) events) ∧
    DemoScript.consumer w' = DemoScript.consumer w ∧
    demo_sends (DemoScript.trace w')
      = demo_sends (DemoScript.trace w) ++
          (DemoScript.event_of
             <$> attempted (DemoScript.send_fails env)
                   (DemoScript.attempts w) events).
Proof.
  unfold DemoScript.send_all, try_except.
  destruct (send_loop_run env (Explorer.enumerate1 events) w)
    as (w' & -> & Hhub & Hcons & Hsends).
  rewrite enumerate1_snd in *.
  destruct (decide _) as [_|_].
  - by exists w'.
  - cbn [is_Exception]. rewrite script_print_run. eexists.
    split; [reflexivity|]. cbn [script_logged DemoScript.hub
      DemoScript.consumer DemoScript.trace].
    rewrite demo_sends_app. cbn [demo_sends omap list_omap].
    by rewrite app_nil_r.
Qed.

Lemma send_demo_events_run env w :
  ∃ w',
    DemoScript.send_demo_events env w = (Returns tt, w') ∧
    DemoScript.hub w'
      = DemoScript.hub w ++
          (DemoScript.event_of
             <$> accepted (DemoScript.send_fails env)
                   (DemoScript.attempts w) (DemoScript.demo_events env)) ∧
    DemoScript.consumer w' = DemoScript.consumer w ∧
    demo_sends (DemoScript.trace w')
      = demo_sends (DemoScript.trace w) ++
          (DemoScript.event_of
             <$> attempted (DemoScript.send_fails env)
                   (DemoScript.attempts w) (DemoScript.demo_events env)).
Proof.
  unfold DemoScript.send_demo_events.
  cbv [mbind prog_bind]. rewrite script_print_run.
  destruct (send_all_run env (DemoScript.demo_events env)
              (script_logged w
                 [DemoScript.ActPrint
                    (DemoScript.LText
                       "Enviando eventos de demonstração...")]))
    as (w1 & -> & Hhub & Hcons & Hsends).
  exists w1. split; [done|]. split; [exact Hhub|]. split; [exact Hcons|].
  rewrite Hsends. cbn [script_logged DemoScript.trace].
  rewrite demo_sends_app. cbn [demo_sends omap list_omap].
  by rewrite app_nil_r.
Qed.

(** X21. [send_demo_events] stops at the first transport error: the
    events before the failing send are in the hub, the failing send is the
    last one attempted, the events after it are never sent, and the
    function reports the error and returns normally. *)
Theorem demo_sending_stops_at_first_error env w :
  let w' := exec (DemoScript.send_demo_events env) w in
  let fails := DemoScript.send_fails env in
  result (DemoScript.send_demo_events env) w = Returns tt ∧
  DemoScript.hub w'
    = DemoScript.hub w ++
        (DemoScript.event_of
           <$> accepted fails (DemoScript.attempts w)
                 (DemoScript.demo_events env)) ∧
  demo_sends (DemoScript.trace w')
    = demo_sends (DemoScript.trace w) ++
        (DemoScript.event_of
           <$> attempted fails (DemoScript.attempts w)
                 (DemoScript.demo_events env)).
Proof.
  intros w' fails. subst w' fails. unfold result, exec.
  by destruct (send_demo_events_run env w) as (w1 & -> & Hhub & _ & Hsends).
Qed.

(** ** The demonstration's [main] *)

Lemma script_log_run a w :
  DemoScript.log a w = (Returns tt, script_logged w [a]).
Proof. reflexivity. Qed.

Lemma list_event_run i r w :
  is_object (Demo.body r) = true →
  DemoScript.list_event (i, r) w
    = (Returns tt, script_logged w [DemoScript.ActPrint (listed i r)]).
Proof.
  unfold DemoScript.list_event, listed.
  destruct (Demo.body r); try discriminate. intros _. reflexivity.
Qed.

Lemma list_event_fails i r w :
  is_object (Demo.body r) = false →
  DemoScript.list_event (i, r) w = (Raises AttributeError, w).
Proof.
  unfold DemoScript.list_event.
  destruct (Demo.body r); try discriminate; reflexivity.
Qed.

Lemma script_logged_nil w : script_logged w [] = w.
Proof. destruct w. unfold script_logged. cbn. by rewrite app_nil_r. Qed.

(** The listing of [main] prints a line for each element until it meets
    one whose body is not an object. *)
Lemma list_events_run (items : list (Z * Demo.Received)) w :
  ∃ lines,
    for_each items DemoScript.list_event w
      = (if decide (Forall (λ r, is_object (Demo.body r) = true) items.*2)
         then Returns tt else Raises AttributeError,
         script_logged w (DemoScript.ActPrint <$> lines)).
Proof.
  revert w. induction items as [|[i r] items IH]; intros w.
  { exists []. cbn [for_each fmap list_fmap]. rewrite script_logged_nil.
    by destruct (decide _) as [?|[]]. }
  cbn [for_each fmap list_fmap snd]. cbv [mbind prog_bind].
  destruct (is_object (Demo.body r)) eqn:Hr.
  - rewrite list_event_run by done.
    destruct (IH (script_logged w [DemoScript.ActPrint (listed i r)]))
      as [lines ->].
    exists (listed i r :: lines). rewrite script_logged_logged.
    cbn [fmap list_fmap app]. f_equal.
    destruct (decide _) as [H1|H1]; destruct (decide _) as [H2|H2];
      try reflexivity.
    + destruct H2. by constructor.
    + destruct H1. by inversion H2.
  - rewrite list_event_fails by done. cbv beta iota. exists [].
    cbn [fmap list_fmap]. rewrite script_logged_nil.
    destruct (decide (Forall _ (r :: _))) as [H|_]; [|done].
    inversion H; congruence.
Qed.

Lemma summary_head_lines n :
  DemoScript.LText "Eventos enviados: 3" ∈ summary_head n ∧
  DemoScript.LReceivedCount n ∈ summary_head n.
Proof. unfold summary_head. split; set_solver. Qed.

Lemma summarize_run events w :
  ∃ lines,
    DemoScript.summarize events w
      = (if decide (Forall (λ r, is_object (Demo.body r) = true) events)
         then Returns tt else Raises AttributeError,
         script_logged w
           (DemoScript.ActPrint
              <$> summary_head (Z.of_nat (length events)) ++ lines)) ∧
    (Forall (λ r, is_object (Demo.body r) = true) events →
     last lines = Some demo_last_line).
Proof.
  unfold DemoScript.summarize. cbv [mbind prog_bind].
  repeat (rewrite script_print_run; cbv beta iota).
  rewrite !script_logged_logged. cbn [app].
  destruct events as [|r events].
  - cbv [mret prog_ret]. repeat (rewrite script_print_run; cbv beta iota).
    rewrite !script_logged_logged. cbn [app].
    destruct (decide (Forall _ [])) as [_|[]]; [|done].
    exists summary_tail. split; reflexivity.
  - rewrite script_print_run. cbv beta iota.
    rewrite !script_logged_logged. cbn [app].
    match goal with |- context [for_each _ _ ?w1] =>
      destruct (list_events_run (Explorer.enumerate1 (r :: events)) w1)
        as [lines ->] end.
    rewrite enumerate1_snd, script_logged_logged.
    destruct (decide (Forall _ (r :: events))) as [Hall|Hnot].
    + repeat (rewrite script_print_run; cbv beta iota).
      rewrite !script_logged_logged.
      exists (DemoScript.LText (DemoScript.nl +:+ "Eventos recebidos:")
                :: lines ++ summary_tail).
      split.
      * f_equal. unfold script_logged. f_equal.
        unfold summary_head, summary_tail, demo_last_line.
        rewrite !fmap_app, !fmap_cons, !fmap_app.
        cbn [fmap list_fmap app]. rewrite <- ?app_assoc. reflexivity.
      * intros _. rewrite last_cons, last_app. reflexivity.
    + exists (DemoScript.LText (DemoScript.nl +:+ "Eventos recebidos:")
                :: lines).
      split; [|done]. reflexivity.
Qed.

Lemma demo_main_run event_hub_name env s :
  DemoScript.input_raises env = None →
  Forall quiet (handed_over s) →
  Sdk.ending s = None ∨ Sdk.ending s = Some CancelledError →
  let events := demo_received (handed_over s) in
  ∃ w1 lines,
    DemoScript.main true event_hub_name env s DemoScript.init =
      (Returns tt,
       script_logged w1
         ((DemoScript.ActPrint
             <$> summary_head (Z.of_nat (length events)) ++ lines) ++
          (if decide (Forall (λ r, is_object (Demo.body r) = true) events)
           then []
           else [DemoScript.ActPrint (DemoScript.LDemoError AttributeError)])))
    ∧
    DemoScript.hub w1
      = DemoScript.event_of
          <$> accepted (DemoScript.send_fails env) 0
                (DemoScript.demo_events env) ∧
    (Forall (λ r, is_object (Demo.body r) = true) events →
     last lines = Some demo_last_line).
Proof.
  intros Hinput Hquiet Hend events.
  unfold DemoScript.main. cbn [negb].
  cbv [mbind prog_bind DemoScript.show_event_hub_info DemoScript.input
       try_except2 DemoScript.sleep].
  repeat (rewrite script_print_run; cbv beta iota).
  rewrite script_log_run. cbv beta iota. rewrite Hinput.
  cbv [mret prog_ret]. rewrite script_print_run. cbv beta iota.
  rewrite !script_logged_logged. cbn [app].
  match goal with |- context [DemoScript.send_demo_events env ?w0] =>
    destruct (send_demo_events_run env w0) as (w1 & -> & Hhub & Hcons & _)
  end.
  cbn [script_logged DemoScript.hub DemoScript.consumer DemoScript.attempts
       DemoScript.init app] in Hhub, Hcons.
  cbv beta iota.
  repeat (rewrite script_print_run; cbv beta iota).
  rewrite script_log_run. cbv beta iota.
  rewrite script_print_run. cbv beta iota.
  rewrite !script_logged_logged. cbn [app].
  unfold DemoScript.with_consumer.
  cbn [script_logged DemoScript.consumer DemoScript.hub DemoScript.attempts
       DemoScript.trace].
  rewrite Hcons.
  destruct (demo_receive_run 10 s Hquiet) as [c ->].
  assert (match Sdk.ending s with
          | Some e =>
              if is_CancelledError e
              then Returns (demo_received (handed_over s))
              else Raises e
          | None => Returns (demo_received (handed_over s))
          end = Returns events) as ->.
  { by destruct Hend as [-> | ->]. }
  match goal with |- context [DemoScript.summarize events ?w2] =>
    destruct (summarize_run events w2) as (lines & -> & Hlast);
    exists w2, lines
  end.
  split; [|split; [exact Hhub|exact Hlast]].
  destruct (decide _) as [Hall|Hnot].
  - by rewrite app_nil_r.
  - cbn [is_KeyboardInterrupt is_Exception]. rewrite script_print_run.
    by rewrite script_logged_logged.
Qed.

(** X22. [main] of the demonstration, when the wait for Enter returns,
    the receive call returns or is cancelled, [update_checkpoint] raises
    at most an [Exception] and every received JSON body is an object:
    [main] returns normally and prints the summary down to its last line.
    The hub holds the demonstration events up to the first send that
    failed (possibly none), but the summary says that three events were
    sent in every case; the number of received events is the number of
    events handed over with a JSON body. *)
Theorem demo_main_reports_three_sent event_hub_name env s :
  DemoScript.input_raises env = None →
  Forall quiet (handed_over s) →
  Sdk.ending s = None ∨ Sdk.ending s = Some CancelledError →
  Forall (λ r, is_object (Demo.body r) = true)
    (demo_received (handed_over s)) →
  let w' :=
    exec (DemoScript.main true event_hub_name env s) DemoScript.init in
  result (DemoScript.main true event_hub_name env s) DemoScript.init
    = Returns tt ∧
  DemoScript.hub w'
    = DemoScript.event_of
        <$> accepted (DemoScript.send_fails env) 0
              (DemoScript.demo_events env) ∧
  DemoScript.LText "Eventos enviados: 3"
    ∈ demo_lines (DemoScript.trace w') ∧
  DemoScript.LReceivedCount
      (Z.of_nat (length (demo_received (handed_over s))))
    ∈ demo_lines (DemoScript.trace w') ∧
  last (demo_lines (DemoScript.trace w')) = Some demo_last_line.
Proof.
  intros Hinput Hquiet Hend Hall w'. subst w'. unfold result, exec.
  destruct (demo_main_run event_hub_name env s Hinput Hquiet Hend)
    as (w1 & lines & -> & Hhub & Hlast).
  destruct (decide _) as [_|[]]; [|done].
  cbn [fst snd script_logged DemoScript.hub DemoScript.trace].
  rewrite app_nil_r, demo_lines_app, demo_lines_prints.
  destruct (summary_head_lines
              (Z.of_nat (length (demo_received (handed_over s)))))
    as [Hthree Hcount].
  split; [done|]. split; [exact Hhub|].
  split; [|split].
  - apply elem_of_app. right. apply elem_of_app. by left.
  - apply elem_of_app. right. apply elem_of_app. by left.
  - rewrite !last_app, (Hlast Hall). reflexivity.
Qed.

Lemma demo_main_reports_three_sent_witness :
  DemoScript.input_raises demo_env = None ∧
  Forall quiet (handed_over (stopped_session 2 (Some CancelledError))) ∧
  Forall (λ r, is_object (Demo.body r) = true)
    (demo_received (handed_over (stopped_session 2 (Some CancelledError)))) ∧
  length
    (DemoScript.hub
       (exec (DemoScript.main true "hub" demo_env
                (stopped_session 2 (Some CancelledError)))
          DemoScript.init)) = 1%nat ∧
  DemoScript.LText "Eventos enviados: 3"
    ∈ demo_lines
        (DemoScript.trace
           (exec (DemoScript.main true "hub" demo_env
                    (stopped_session 2 (Some CancelledError)))
              DemoScript.init)).
Proof.
  assert (Forall quiet
            (handed_over (stopped_session 2 (Some CancelledError)))) as Hq.
  { repeat constructor. }
  assert (Forall (λ r, is_object (Demo.body r) = true)
            (demo_received
               (handed_over (stopped_session 2 (Some CancelledError)))))
    as Ho.
  { repeat constructor. }
  split; [reflexivity|]. split; [exact Hq|]. split; [exact Ho|].
  destruct (demo_main_reports_three_sent "hub" demo_env
              (stopped_session 2 (Some CancelledError)) eq_refl Hq
              (or_intror eq_refl) Ho) as (_ & -> & Hthree & _).
  split; [reflexivity|exact Hthree].
Defined.

(** X23. [main] of the demonstration, in the same conditions except that
    one of the received events has a JSON body that is not an object (the
    handler has recorded it): the listing of the received events raises
    [AttributeError] on that element, [main] catches it, and the
    demonstration ends on the error message instead of the closing lines,
    after the count of the received events has been printed. *)
Theorem demo_main_listing_breaks event_hub_name env s :
  DemoScript.input_raises env = None →
  Forall quiet (handed_over s) →
  Sdk.ending s = None ∨ Sdk.ending s = Some CancelledError →
  Exists (λ r, is_object (Demo.body r) = false)
    (demo_received (handed_over s)) →
  let w' :=
    exec (DemoScript.main true event_hub_name env s) DemoScript.init in
  result (DemoScript.main true event_hub_name env s) DemoScript.init
    = Returns tt ∧
  DemoScript.LReceivedCount
      (Z.of_nat (length (demo_received (handed_over s))))
    ∈ demo_lines (DemoScript.trace w') ∧
  last (demo_lines (DemoScript.trace w'))
    = Some (DemoScript.LDemoError AttributeError).
Proof.
  intros Hinput Hquiet Hend Hsome w'. subst w'. unfold result, exec.
  destruct (demo_main_run event_hub_name env s Hinput Hquiet Hend)
    as (w1 & lines & -> & _ & _).
  destruct (decide _) as [Hall|_].
  { apply Exists_exists in Hsome as (r & Hr & Hbody).
    rewrite Forall_forall in Hall. specialize (Hall r Hr). congruence. }
  cbn [fst snd script_logged DemoScript.trace].
  rewrite !demo_lines_app, demo_lines_prints.
  destruct (summary_head_lines
              (Z.of_nat (length (demo_received (handed_over s)))))
    as [_ Hcount].
  split; [done|]. split.
  - apply elem_of_app. right. apply elem_of_app. left.
    apply elem_of_app. by left.
  - rewrite !app_assoc. apply last_snoc.
Qed.

Lemma demo_main_listing_breaks_witness :
  DemoScript.input_raises demo_env = None ∧
  Forall quiet (handed_over session_with_list_body) ∧
  Exists (λ r, is_object (Demo.body r) = false)
    (demo_received (handed_over session_with_list_body)) ∧
  last
    (demo_lines
       (DemoScript.trace
          (exec (DemoScript.main true "hub" demo_env session_with_list_body)
             DemoScript.init)))
    = Some (DemoScript.LDemoError AttributeError).
Proof.
  assert (Forall quiet (handed_over session_with_list_body)) as Hq.
  { repeat constructor. }
  assert (Exists (λ r, is_object (Demo.body r) = false)
            (demo_received (handed_over session_with_list_body))) as He.
  { apply Exists_cons_tl, Exists_cons_hd. reflexivity. }
  split; [reflexivity|]. split; [exact Hq|]. split; [exact He|].
  apply (demo_main_listing_breaks "hub" demo_env session_with_list_body
           eq_refl Hq (or_intror eq_refl) He).
Defined.

(** * [send_events.py] *)

Lemma sender_lines_app l1 l2 :
  sender_lines (l1 ++ l2) = sender_lines l1 ++ sender_lines l2.
Proof. apply omap_app. Qed.

Lemma sleeps_app l1 l2 : sleeps (l1 ++ l2) = sleeps l1 ++ sleeps l2.
Proof. apply omap_app. Qed.

(** What one turn of the loop of [send_batch_events] prints, and whether
    it pauses. *)
Lemma batch_step_output env num_events delay i w :
  ∃ w',
    batch_step env num_events delay i w = (Returns tt, w') ∧
    Sender.generated w' = S (Sender.generated w) ∧
    Sender.attempts w' = S (Sender.attempts w) ∧
    sender_lines (Sender.trace w')
      = sender_lines (Sender.trace w) ++
          [if Sender.send_fails env (Sender.attempts w)
           then Sender.LSendError EventHubError
           else Sender.LSent
                  (Sender.event_id (Sender.sample env (Sender.generated w)))
                  (Sender.event_type
                     (Sender.sample env (Sender.generated w)))] ∧
    sleeps (Sender.trace w')
      = sleeps (Sender.trace w) ++
          (if decide (i < num_events - 1) then [delay] else []).
Proof.
  cbv [batch_step Sender.generate_sample_data Sender.send_single_event
       Sender.send_batch Sender.sleep Sender.print Sender.log try_except
       mbind prog_bind mret prog_ret raise modify get_store
       Sender.generated Sender.attempts Sender.hub Sender.trace].
  destruct (Sender.send_fails env _);
    destruct (decide (i < num_events - 1));
    cbn [is_Exception];
    (eexists; split; [reflexivity|]);
    cbn [Sender.generated Sender.attempts Sender.hub Sender.trace];
    rewrite ?sender_lines_app, ?sleeps_app;
    cbn [sender_lines sleeps omap list_omap];
    rewrite ?app_nil_r; done.
Qed.

Lemma batch_loop_output env num_events delay (k a : nat) w :
  Sender.generated w = a → Sender.attempts w = a →
  ∃ w',
    for_each (Z.of_nat <$> seq a k) (batch_step env num_events delay) w
      = (Returns tt, w') ∧
    sender_lines (Sender.trace w')
      = sender_lines (Sender.trace w) ++ (batch_report env <$> seq a k) ∧
    sleeps (Sender.trace w')
      = sleeps (Sender.trace w) ++
          replicate
            (length (filter (λ i, Z.of_nat i < num_events - 1) (seq a k)))
            delay.
Proof.
  revert a w. induction k as [|k IH]; intros a w Hg Ha.
  - exists w. cbn [seq fmap list_fmap for_each]. rewrite filter_nil.
    cbn [length replicate]. by rewrite !app_nil_r.
  - destruct (batch_step_output env num_events delay (Z.of_nat a) w)
      as (w1 & Hrun & Hg1 & Ha1 & Hl1 & Hs1).
    destruct (IH (S a) w1) as (w2 & Hloop & Hl2 & Hs2); [lia..|].
    exists w2. split; [|split].
    + cbn [seq fmap list_fmap for_each]. cbv [mbind prog_bind].
      rewrite Hrun. exact Hloop.
    + rewrite Hl2, Hl1, Hg, Ha. cbn [seq fmap list_fmap].
      unfold batch_report at 2. by rewrite <- app_assoc.
    + rewrite Hs2, Hs1. cbn [seq]. rewrite filter_cons.
      destruct (decide (Z.of_nat a < num_events - 1));
        cbn [length replicate]; by rewrite <- app_assoc.
Qed.

Lemma pauses_in_range (m : Z) (k a : nat) :
  length (filter (λ i, Z.of_nat i < m) (seq a k))
    = Z.to_nat (Z.max 0 (Z.min (Z.of_nat (a + k)) m - Z.of_nat a)).
Proof.
  revert a. induction k as [|k IH]; intros a.
  - cbn [seq]. rewrite filter_nil. cbn [length]. lia.
  - cbn [seq]. rewrite filter_cons.
    destruct (decide (Z.of_nat a < m)); cbn [length]; rewrite IH; lia.
Qed.

(** The store after [send_batch_events], from the store after its loop. *)
Lemma send_batch_events_exec env num_events delay :
  let w0 := exec (Sender.print (Sender.LStart num_events)) Sender.init in
  ∀ w1,
    for_each (Z.of_nat <$> seq 0 (Z.to_nat num_events))
      (batch_step env num_events delay) w0 = (Returns tt, w1) →
    Sender.trace
      (exec (Sender.send_batch_events env num_events delay) Sender.init)
      = Sender.trace w1 ++ [Sender.ActPrint (Sender.LDone num_events)].
Proof.
  intros w0 w1 Hloop.
  unfold exec, Sender.send_batch_events, Sender.py_range.
  change (λ i : Z, _) with (batch_step env num_events delay).
  cbv [mbind prog_bind].
  change (Sender.print (Sender.LStart num_events) Sender.init)
    with (Returns tt, w0).
  cbv iota beta. rewrite Hloop. reflexivity.
Qed.

(** X24. [send_batch_events] reports every event once: after the opening
    line it prints, for each of the events in order, either the
    confirmation with the event's id and type or the error of its send,
    and it ends with the completion line, which names [num_events] as the
    number of events sent whether or not sends failed (and also when
    [num_events] is zero or negative and nothing was sent). *)
Theorem batch_reports_every_event env num_events delay :
  sender_lines
    (Sender.trace
       (exec (Sender.send_batch_events env num_events delay) Sender.init))
    = Sender.LStart num_events
        :: (batch_report env <$> seq 0 (Z.to_nat num_events)) ++
           [Sender.LDone num_events].
Proof.
  destruct (batch_loop_output env num_events delay (Z.to_nat num_events) 0
              (exec (Sender.print (Sender.LStart num_events)) Sender.init))
    as (w1 & Hloop & Hl & _); [done..|].
  rewrite (send_batch_events_exec env num_events delay w1 Hloop).
  rewrite sender_lines_app, Hl. reflexivity.
Qed.

(** X25. [send_batch_events] pauses between the events and not after the
    last one: it sleeps [num_events - 1] times, each time for [delay], and
    not at all when [num_events] is at most one. *)
Theorem batch_pauses_between_events env num_events delay :
  sleeps
    (Sender.trace
       (exec (Sender.send_batch_events env num_events delay) Sender.init))
    = replicate (Z.to_nat num_events - 1) delay.
Proof.
  destruct (batch_loop_output env num_events delay (Z.to_nat num_events) 0
              (exec (Sender.print (Sender.LStart num_events)) Sender.init))
    as (w1 & Hloop & _ & Hs); [done..|].
  rewrite (send_batch_events_exec env num_events delay w1 Hloop).
  rewrite sleeps_app, Hs, pauses_in_range.
  change (sleeps (Sender.trace
            (exec (Sender.print (Sender.LStart num_events)) Sender.init)))
    with (@nil Q).
  cbn [sleeps omap list_omap app]. rewrite app_nil_r. f_equal. lia.
Qed.

(** * The events of an export *)





